(** * WebChatFront: the chat/message store and its reconciliation rules

    A shallow embedding of [src/contexts/ChatContext.tsx] (the reducer
    [chatReducer], the realtime handlers installed by [ChatProvider] and the
    commands [sendMessage] and [deleteChat]) and of [getChatDisplayName] from
    [src/utils/chatUtils.ts], followed by the properties of the deduplication
    rule, the optimistic send protocol, the unread counters and the display
    name derivation.

    Conventions.
    - JavaScript numbers that carry identifiers, counters and epoch
      milliseconds are integers of [Z].
    - An object indexed by chat id ([{ [chatId: number]: ... }]) is a
      [gmap Z]; reading a missing key yields [undefined], here [None].
    - [Date.now()] is an input of whatever reads the clock.
    - An [await] splits a command in the part before it and the continuation
      that receives the outcome of the remote call; events may be handled in
      between. *)

From Stdlib Require Import ZArith Lia.
From stdpp Require Import base option list gmap strings pretty.

Local Open Scope Z_scope.

(** ** Data model *)

(** Modelled from the spec: the declarations of [src/types] ([User], [Chat],
    [ChatParticipant], [Message], [MessageData], [OnlineUser], [TypingUser])
    are not part of the sources at hand; the records below carry the fields
    the code reads and writes, with the optionality the code tests for. *)
Record User := mkUser {
  u_id : Z;
  u_username : string;
  u_createdAt : string
}.

Inductive ChatType := direct | group.

Inductive Status := sent | delivered | read | failed.

(** A timestamp is an ISO string in the source. The store only ever looks at
    [new Date(ts).getTime()], so a timestamp is kept as that reading: the
    epoch milliseconds, or [InvalidDate] when the string does not parse (the
    reading is then NaN). *)
Inductive Timestamp := Time (ms : Z) | InvalidDate.

Record ChatParticipant := mkParticipant {
  p_chatId : Z;
  p_userId : Z;
  p_joinedAt : string;
  p_user : option User;
  p_username : option string
}.

Record Message := mkMessage {
  m_id : Z;
  m_chatId : Z;
  m_senderId : Z;
  m_sender : option User;
  m_content : string;
  m_timestamp : Timestamp;
  m_status : Status
}.

Record Chat := mkChat {
  c_id : Z;
  c_name : string;
  c_type : ChatType;
  c_createdAt : string;
  c_participants : list ChatParticipant;
  c_messages : list Message
}.

(** The id of a realtime payload is [string | number]. *)
Inductive DataId := NumId (n : Z) | StrId (s : string).

Record MessageData := mkMessageData {
  d_id : DataId;
  d_chatId : Z;
  d_senderId : Z;
  d_senderUsername : option string;
  d_content : string;
  d_timestamp : Timestamp;
  d_status : Status
}.

Record OnlineUser := mkOnlineUser { o_userId : Z; o_username : string }.

Record TypingUser := mkTypingUser {
  t_userId : Z;
  t_username : string;
  t_isTyping : bool
}.

(** [Partial<Message>]: every field may be absent. *)
Record MessageUpdates := mkUpdates {
  up_id : option Z;
  up_chatId : option Z;
  up_senderId : option Z;
  up_sender : option (option User);
  up_content : option string;
  up_timestamp : option Timestamp;
  up_status : option Status
}.

Record ChatState := mkState {
  chats : list Chat;
  activeChat : option Chat;
  messages : gmap Z (list Message);
  onlineUsers : list OnlineUser;
  typingUsers : gmap Z (list TypingUser);
  unreadCounts : gmap Z Z;
  isConnected : bool;
  isLoading : bool;
  messageUpdateTrigger : Z
}.

(** The payload of [ADD_MESSAGE] is [Message | MessageData]; the reducer
    tells them apart with ['sender' in message]. *)
Inductive AddPayload := Full (m : Message) | Light (d : MessageData).

Inductive ChatAction :=
  | SET_CHATS (payload : list Chat)
  | SET_ACTIVE_CHAT (payload : option Chat)
  | ADD_CHAT (payload : Chat)
  | REMOVE_CHAT (payload : Z)
  | SET_MESSAGES (chatId : Z) (msgs : list Message)
  | ADD_MESSAGE (payload : AddPayload)
  | UPDATE_MESSAGE (chatId : Z) (messageId : Z) (updates : MessageUpdates)
  | SET_ONLINE_USERS (payload : list OnlineUser)
  | USER_ONLINE (payload : OnlineUser)
  | USER_OFFLINE (userId : Z)
  | SET_TYPING (chatId : Z) (users : list TypingUser)
  | INCREMENT_UNREAD (chatId : Z)
  | CLEAR_UNREAD (chatId : Z)
  | SET_CONNECTION_STATUS (payload : bool)
  | SET_LOADING (payload : bool).

Definition initialState : ChatState :=
  {| chats := []; activeChat := None; messages := ∅; onlineUsers := [];
     typingUsers := ∅; unreadCounts := ∅; isConnected := false;
     isLoading := true; messageUpdateTrigger := 0 |}.

#[global] Instance User_eq_dec : EqDecision User.
Proof. solve_decision. Defined.
#[global] Instance Status_eq_dec : EqDecision Status.
Proof. solve_decision. Defined.
#[global] Instance Timestamp_eq_dec : EqDecision Timestamp.
Proof. solve_decision. Defined.

(** ** JavaScript helpers *)

(** [s || d] for an optional string: [undefined] and the empty string are
    falsy. *)
Definition str_or (s : option string) (d : string) : string :=
  match s with
  | Some v => if decide (v = EmptyString) then d else v
  | None => d
  end.

(** The template [`User ${n}`]. *)
Definition placeholderName (n : Z) : string := "User " +:+ pretty n.

(** [new Date(ts).getTime()]; [None] is NaN. *)
Definition getTime (ts : Timestamp) : option Z :=
  match ts with
  | Time ms => Some ms
  | InvalidDate => None
  end.

(** [Math.abs(a - b) < 500] on two clock readings; any comparison with NaN
    is false. *)
Definition timeClose (a b : Timestamp) : bool :=
  match getTime a, getTime b with
  | Some x, Some y => bool_decide (Z.abs (x - y) < 500)
  | _, _ => false
  end.

(** [obj[k] || []] *)
Definition timeline (s : ChatState) (chatId : Z) : list Message :=
  default [] (messages s !! chatId).

(** [(obj[k] || 0)] *)
Definition unread (s : ChatState) (chatId : Z) : Z :=
  default 0 (unreadCounts s !! chatId).

(** ** [chatReducer] *)

Definition syntheticSender (senderId : Z) (name : option string) : User :=
  {| u_id := senderId;
     u_username := str_or name (placeholderName senderId);
     u_createdAt := EmptyString |}.

(** The conversion at the head of the [ADD_MESSAGE] case: a payload with a
    [sender] key is taken as it is, a lightweight one is rebuilt ([now] is
    the reading of [Date.now()] that replaces a string id); a missing sender
    is then filled in. *)
Definition toMessage (now : Z) (payload : AddPayload) : Message :=
  let newMessage :=
    match payload with
    | Full m => m
    | Light d =>
        {| m_id := match d_id d with StrId _ => now | NumId n => n end;
           m_chatId := d_chatId d;
           m_senderId := d_senderId d;
           m_sender := Some (syntheticSender (d_senderId d) (d_senderUsername d));
           m_content := d_content d;
           m_timestamp := d_timestamp d;
           m_status := d_status d |}
    end in
  match m_sender newMessage with
  | Some _ => newMessage
  | None =>
      {| m_id := m_id newMessage;
         m_chatId := m_chatId newMessage;
         m_senderId := m_senderId newMessage;
         m_sender := Some (syntheticSender (m_senderId newMessage) None);
         m_content := m_content newMessage;
         m_timestamp := m_timestamp newMessage;
         m_status := m_status newMessage |}
  end.

(** The callback of [currentMessages.some(...)]: does the stored [msg] stand
    for [newMessage]? Both ids are numbers by their type, so of the guard
    only the two sign tests remain. *)
Definition sameMessage (newMessage msg : Message) : bool :=
  if bool_decide (m_id msg > 0) && bool_decide (m_id newMessage > 0)
  then bool_decide (m_id msg = m_id newMessage)
  else
    let sameContent :=
      bool_decide (m_senderId msg = m_senderId newMessage)
      && bool_decide (m_content msg = m_content newMessage) in
    sameContent && timeClose (m_timestamp msg) (m_timestamp newMessage).

Definition messageExists (currentMessages : list Message) (newMessage : Message) : bool :=
  existsb (sameMessage newMessage) currentMessages.

(** [{ ...msg, ...updates }] *)
Definition applyUpdates (msg : Message) (u : MessageUpdates) : Message :=
  {| m_id := default (m_id msg) (up_id u);
     m_chatId := default (m_chatId msg) (up_chatId u);
     m_senderId := default (m_senderId msg) (up_senderId u);
     m_sender := default (m_sender msg) (up_sender u);
     m_content := default (m_content msg) (up_content u);
     m_timestamp := default (m_timestamp msg) (up_timestamp u);
     m_status := default (m_status msg) (up_status u) |}.

(** The callback of [chatMessages.map(...)] in the [UPDATE_MESSAGE] case. *)
Definition rewriteWhere (messageId : Z) (u : MessageUpdates) (msg : Message) : Message :=
  if decide (m_id msg = messageId) then applyUpdates msg u else msg.

Definition set_messages (s : ChatState) (ms : gmap Z (list Message)) (trigger : Z) : ChatState :=
  {| chats := chats s; activeChat := activeChat s; messages := ms;
     onlineUsers := onlineUsers s; typingUsers := typingUsers s;
     unreadCounts := unreadCounts s; isConnected := isConnected s;
     isLoading := isLoading s; messageUpdateTrigger := trigger |}.

(** The reducer. [now] is what [Date.now()] returns while it runs (read in
    the [ADD_MESSAGE] case only). The console output and the
    [messageEmitter.emit('messageAdded', ...)] of the [ADD_MESSAGE] case do
    not reach the store and are left out. *)
Definition chatReducer (now : Z) (state : ChatState) (action : ChatAction) : ChatState :=
  match action with
  | SET_CHATS payload =>
      {| chats := payload; activeChat := activeChat state;
         messages := messages state; onlineUsers := onlineUsers state;
         typingUsers := typingUsers state; unreadCounts := unreadCounts state;
         isConnected := isConnected state; isLoading := isLoading state;
         messageUpdateTrigger := messageUpdateTrigger state |}
  | SET_ACTIVE_CHAT payload =>
      {| chats := chats state; activeChat := payload;
         messages := messages state; onlineUsers := onlineUsers state;
         typingUsers := typingUsers state; unreadCounts := unreadCounts state;
         isConnected := isConnected state; isLoading := isLoading state;
         messageUpdateTrigger := messageUpdateTrigger state |}
  | ADD_CHAT payload =>
      {| chats := payload :: chats state; activeChat := activeChat state;
         messages := messages state; onlineUsers := onlineUsers state;
         typingUsers := typingUsers state; unreadCounts := unreadCounts state;
         isConnected := isConnected state; isLoading := isLoading state;
         messageUpdateTrigger := messageUpdateTrigger state |}
  | REMOVE_CHAT payload =>
      {| chats := filter (λ chat, c_id chat ≠ payload) (chats state);
         activeChat :=
           match activeChat state with
           | Some a => if decide (c_id a = payload) then None else Some a
           | None => None
           end;
         messages := messages state; onlineUsers := onlineUsers state;
         typingUsers := typingUsers state; unreadCounts := unreadCounts state;
         isConnected := isConnected state; isLoading := isLoading state;
         messageUpdateTrigger := messageUpdateTrigger state |}
  | SET_MESSAGES chatId msgs =>
      set_messages state (<[chatId := msgs]> (messages state))
                   (messageUpdateTrigger state)
  | ADD_MESSAGE payload =>
      let newMessage := toMessage now payload in
      let chatId := m_chatId newMessage in
      let currentMessages := timeline state chatId in
      if messageExists currentMessages newMessage then state
      else
        set_messages state
          (<[chatId := currentMessages ++ [newMessage]]> (messages state))
          (messageUpdateTrigger state + 1)
  | UPDATE_MESSAGE updateChatId messageId updates =>
      let chatMessages := timeline state updateChatId in
      let updatedMessages := map (rewriteWhere messageId updates) chatMessages in
      set_messages state (<[updateChatId := updatedMessages]> (messages state))
                   (messageUpdateTrigger state)
  | SET_ONLINE_USERS payload =>
      {| chats := chats state; activeChat := activeChat state;
         messages := messages state; onlineUsers := payload;
         typingUsers := typingUsers state; unreadCounts := unreadCounts state;
         isConnected := isConnected state; isLoading := isLoading state;
         messageUpdateTrigger := messageUpdateTrigger state |}
  | USER_ONLINE payload =>
      match find (λ u, bool_decide (o_userId u = o_userId payload)) (onlineUsers state) with
      | Some _ => state
      | None =>
          {| chats := chats state; activeChat := activeChat state;
             messages := messages state;
             onlineUsers := onlineUsers state ++ [payload];
             typingUsers := typingUsers state; unreadCounts := unreadCounts state;
             isConnected := isConnected state; isLoading := isLoading state;
             messageUpdateTrigger := messageUpdateTrigger state |}
      end
  | USER_OFFLINE userId =>
      {| chats := chats state; activeChat := activeChat state;
         messages := messages state;
         onlineUsers := filter (λ u, o_userId u ≠ userId) (onlineUsers state);
         typingUsers := typingUsers state; unreadCounts := unreadCounts state;
         isConnected := isConnected state; isLoading := isLoading state;
         messageUpdateTrigger := messageUpdateTrigger state |}
  | SET_TYPING chatId users =>
      {| chats := chats state; activeChat := activeChat state;
         messages := messages state; onlineUsers := onlineUsers state;
         typingUsers := <[chatId := users]> (typingUsers state);
         unreadCounts := unreadCounts state;
         isConnected := isConnected state; isLoading := isLoading state;
         messageUpdateTrigger := messageUpdateTrigger state |}
  | INCREMENT_UNREAD chatId =>
      {| chats := chats state; activeChat := activeChat state;
         messages := messages state; onlineUsers := onlineUsers state;
         typingUsers := typingUsers state;
         unreadCounts := <[chatId := unread state chatId + 1]> (unreadCounts state);
         isConnected := isConnected state; isLoading := isLoading state;
         messageUpdateTrigger := messageUpdateTrigger state |}
  | CLEAR_UNREAD chatId =>
      {| chats := chats state; activeChat := activeChat state;
         messages := messages state; onlineUsers := onlineUsers state;
         typingUsers := typingUsers state;
         unreadCounts := <[chatId := 0]> (unreadCounts state);
         isConnected := isConnected state; isLoading := isLoading state;
         messageUpdateTrigger := messageUpdateTrigger state |}
  | SET_CONNECTION_STATUS payload =>
      {| chats := chats state; activeChat := activeChat state;
         messages := messages state; onlineUsers := onlineUsers state;
         typingUsers := typingUsers state; unreadCounts := unreadCounts state;
         isConnected := payload; isLoading := isLoading state;
         messageUpdateTrigger := messageUpdateTrigger state |}
  | SET_LOADING payload =>
      {| chats := chats state; activeChat := activeChat state;
         messages := messages state; onlineUsers := onlineUsers state;
         typingUsers := typingUsers state; unreadCounts := unreadCounts state;
         isConnected := isConnected state; isLoading := payload;
         messageUpdateTrigger := messageUpdateTrigger state |}
  end.

(** ** [ChatProvider]: refs, handlers and commands *)

(** What a handler or a command does besides dispatching: calls of the
    registered notification callback, deferred dispatches, and requests to
    the gateway and to the realtime service. *)
Inductive Effect :=
  | Notify (callback : nat) (chatId : Z) (senderName content : string)
  | SetTimeout (delay : Z) (action : ChatAction)
  | RemoteSend (chatId userId : Z) (content : string)
  | RemoteDelete (chatId : Z)
  | LoadMessages (chatId : Z)
  | JoinChat (chatId : Z).

Record JsError := mkError { err_message : string }.

(** The component's store and refs. [newMessageCallbackRef] holds the
    identity of the callback registered with [setOnNewMessage], if any. *)
Record Provider := mkProvider {
  user : User;
  state : ChatState;
  activeChatRef : option Chat;
  newMessageCallbackRef : option nat
}.

Definition dispatch (now : Z) (action : ChatAction) (p : Provider) : Provider :=
  {| user := user p;
     state := chatReducer now (state p) action;
     activeChatRef := activeChatRef p;
     newMessageCallbackRef := newMessageCallbackRef p |}.

(** The effect [activeChatRef.current = state.activeChat], run after a
    render in which the active chat changed. *)
Definition syncActiveChatRef (p : Provider) : Provider :=
  {| user := user p;
     state := state p;
     activeChatRef := activeChat (state p);
     newMessageCallbackRef := newMessageCallbackRef p |}.

Definition setOnNewMessage (callback : option nat) (p : Provider) : Provider :=
  {| user := user p;
     state := state p;
     activeChatRef := activeChatRef p;
     newMessageCallbackRef := callback |}.

(** [activeChatRef.current && messageData.chatId === activeChatRef.current.id] *)
Definition isActiveChat (p : Provider) (chatId : Z) : bool :=
  match activeChatRef p with
  | Some a => bool_decide (chatId = c_id a)
  | None => false
  end.

(** [signalRService.onReceiveMessage] *)
Definition onReceiveMessage (now : Z) (p : Provider) (messageData : MessageData)
  : Provider * list Effect :=
  let active := isActiveChat p (d_chatId messageData) in
  let isOwnMessage := bool_decide (d_senderId messageData = u_id (user p)) in
  let p1 := dispatch now (ADD_MESSAGE (Light messageData)) p in
  let timers := if active then [SetTimeout 10 (SET_LOADING false)] else [] in
  if negb active && negb isOwnMessage then
    let p2 := dispatch now (INCREMENT_UNREAD (d_chatId messageData)) p1 in
    let calls :=
      match newMessageCallbackRef p with
      | Some callback =>
          [Notify callback (d_chatId messageData)
             (str_or (d_senderUsername messageData)
                     (placeholderName (d_senderId messageData)))
             (d_content messageData)]
      | None => []
      end in
    (p2, timers ++ calls)
  else (p1, timers).

(** [signalRService.onUserTyping]. The handler reads [state.typingUsers]
    through its closure: [captured] is the store as it was when the handler
    was installed. A missing chat id and the chat id 0 are both falsy. *)
Definition onUserTyping (now : Z) (captured : ChatState) (p : Provider)
    (userId : Z) (username : string) (isTyping : bool) (chatId : option Z)
  : Provider :=
  match chatId with
  | Some c =>
      if decide (c = 0) then p
      else
        let currentTyping := default [] (typingUsers captured !! c) in
        let newTyping :=
          if isTyping then
            match find (λ u, bool_decide (t_userId u = userId)) currentTyping with
            | None => currentTyping ++ [mkTypingUser userId username isTyping]
            | Some _ => currentTyping
            end
          else filter (λ u, t_userId u ≠ userId) currentTyping in
        dispatch now (SET_TYPING c newTyping) p
  | None => p
  end.

(** The result of a command: the provider afterwards, what it asked of its
    collaborators, and the error it rejects with, if any. *)
Record Outcome := mkOutcome {
  out_provider : Provider;
  out_effects : list Effect;
  out_raised : option JsError
}.

(** [sendMessage], up to [await chatService.sendMessage(...)]. [tempId] is
    the reading of [Date.now()] and [stamp] that of [new Date()]; the
    reducer does not read the clock for a payload that has a sender, so
    [stamp] serves as its reading too. *)
Definition tempMessage (p : Provider) (tempId stamp : Z) (chatId : Z) (content : string) : Message :=
  {| m_id := tempId;
     m_chatId := chatId;
     m_senderId := u_id (user p);
     m_sender := Some (user p);
     m_content := content;
     m_timestamp := Time stamp;
     m_status := sent |}.

Definition sendMessage_request (tempId stamp : Z) (p : Provider)
    (chatId : Z) (content : string) : Provider * list Effect :=
  (dispatch stamp (ADD_MESSAGE (Full (tempMessage p tempId stamp chatId content))) p,
   [RemoteSend chatId (u_id (user p)) content]).

(** [sendMessage], from the outcome of the remote call on: [inl] is the
    saved message the gateway answered with, [inr] the error it threw. The
    catch branch inspects the error's message for its console output only,
    then rethrows. *)
Definition sendMessage_resume (now tempId : Z) (p : Provider) (chatId : Z)
    (result : Message + JsError) : Outcome :=
  match result with
  | inl savedMessage =>
      if decide (m_id savedMessage ≠ tempId) then
        {| out_provider :=
             dispatch now
               (UPDATE_MESSAGE chatId tempId
                  {| up_id := Some (m_id savedMessage);
                     up_chatId := None; up_senderId := None; up_sender := None;
                     up_content := None;
                     up_timestamp := Some (m_timestamp savedMessage);
                     up_status := Some (m_status savedMessage) |}) p;
           out_effects := [];
           out_raised := None |}
      else {| out_provider := p; out_effects := []; out_raised := None |}
  | inr error =>
      {| out_provider :=
           dispatch now
             (UPDATE_MESSAGE chatId tempId
                {| up_id := None;
                   up_chatId := None; up_senderId := None; up_sender := None;
                   up_content := None; up_timestamp := None;
                   up_status := Some failed |}) p;
         out_effects := [];
         out_raised := Some error |}
  end.

(** [deleteChat]: the request, and the continuation on its outcome ([None]
    when the gateway call resolved). *)
Definition deleteChat_request (chatId : Z) : list Effect := [RemoteDelete chatId].

Definition deleteChat_resume (now : Z) (p : Provider) (chatId : Z)
    (failure : option JsError) : Outcome :=
  match failure with
  | None =>
      {| out_provider := dispatch now (REMOVE_CHAT chatId) p;
         out_effects := [];
         out_raised := None |}
  | Some error =>
      {| out_provider := p; out_effects := []; out_raised := Some error |}
  end.

(** ** [getChatDisplayName] *)

Definition unknownUser : string := "Unknown User".

Definition getChatDisplayName (chat : Chat) (currentUserId : Z) : string :=
  match c_type chat with
  | group => c_name chat
  | direct =>
      match find (λ p, bool_decide (p_userId p ≠ currentUserId)) (c_participants chat) with
      | Some otherParticipant =>
          str_or (u_username <$> p_user otherParticipant)
                 (str_or (p_username otherParticipant) unknownUser)
      | None => unknownUser
      end
  end.

(** ** Sample stores, messages and events *)

Definition alice : User := mkUser 1 "alice" "2024-01-01".

Definition bob : User := mkUser 2 "bob" "2024-01-02".

Definition stored_555 : Message :=
  mkMessage 555 7 2 (Some bob) "hello" (Time 1700000000000) sent.

Definition incoming_555 : Message :=
  mkMessage 555 7 1 (Some alice) "something else" (Time 1700000900000) delivered.

Definition stored_local : Message :=
  mkMessage 0 7 2 (Some bob) "hello" (Time 1700000000000) sent.

Definition incoming_at (ms : Z) : Message :=
  mkMessage 0 7 2 (Some bob) "hello" (Time ms) sent.

Definition store_with (chatId : Z) (l : list Message) : ChatState :=
  set_messages initialState {[ chatId := l ]} 0.

Definition fresh_provider (u : User) : Provider := mkProvider u initialState None None.

(** An event without a usable id (id 0), 400ms after the echo. *)
Definition echo_event_no_id : MessageData :=
  mkMessageData (NumId 0) 7 1 (Some "alice") "hello" (Time 1700000000400) sent.

(** The server's event carries the stored message's id, 555. *)
Definition echo_event_555 : MessageData :=
  mkMessageData (NumId 555) 7 1 (Some "alice") "hello" (Time 1700000000400) sent.

Definition bob_event_42 : MessageData :=
  mkMessageData (NumId 42) 7 2 (Some "bob") "hi" (Time 1700000000000) sent.

(** An event whose id is a string. *)
Definition bob_event_str : MessageData :=
  mkMessageData (StrId "a1b2") 7 2 (Some "bob") "hi" (Time 1700000000000) sent.

Definition saved_555 : Message :=
  mkMessage 555 7 1 (Some alice) "hello" (Time 1700000000300) delivered.

Definition chat7 : Chat :=
  mkChat 7 EmptyString direct "2024-01-03"
    [mkParticipant 7 1 "2024-01-03" (Some alice) (Some "alice");
     mkParticipant 7 2 "2024-01-03" (Some bob) (Some "bob")] [].

(** Alice's provider with a notification callback registered and chat 7
    active. *)
Definition alice_in_chat7 : Provider :=
  syncActiveChatRef
    (dispatch 0 (SET_ACTIVE_CHAT (Some chat7))
       (setOnNewMessage (Some 1%nat) (fresh_provider alice))).

Definition bob_event_chat9 : MessageData :=
  mkMessageData (NumId 43) 9 2 None "anyone?" (Time 1700000000000) sent.

(** Alice's provider with chat 7 listed and active, holding one message. *)
Definition alice_with_history : Provider :=
  dispatch 0 (SET_MESSAGES 7 [stored_555])
    (dispatch 0 (SET_CHATS [chat7]) alice_in_chat7).

Definition direct_chat (ps : list ChatParticipant) : Chat :=
  mkChat 7 EmptyString direct "2024-01-03" ps [].

Definition alice_participant : ChatParticipant :=
  mkParticipant 7 1 "2024-01-03" (Some alice) (Some "alice").

Definition bob_participant : ChatParticipant :=
  mkParticipant 7 2 "2024-01-03" (Some bob) (Some "bob").

(** A participant known by its userId only. *)
Definition nameless_participant : ChatParticipant :=
  mkParticipant 7 2 "2024-01-03" None None.

(** ** More of [ChatProvider] and of the chat list *)

(** The positive ids of a timeline, in order: the ids the id test of
    [sameMessage] can compare. *)
Definition positiveIds (l : list Message) : list Z :=
  filter (λ n, n > 0) (m_id <$> l).

(** [setActiveChat]. [loadMessages] and [signalRService.joinChat] are
    started, not awaited. *)
Definition setActiveChat (now : Z) (chat : option Chat) (p : Provider)
  : Provider * list Effect :=
  let p1 := dispatch now (SET_ACTIVE_CHAT chat) p in
  match chat with
  | Some c =>
      (dispatch now (CLEAR_UNREAD (c_id c)) p1,
       [LoadMessages (c_id c); JoinChat (c_id c)])
  | None => (p1, [])
  end.

(** [getLastMessage] of the chat list ([src/unnamed/part_000]):
    [null] for a missing or empty timeline, else its last element. *)
Definition getLastMessage (s : ChatState) (chatId : Z) : option Message :=
  match messages s !! chatId with
  | None => None
  | Some chatMessages =>
      if decide (length chatMessages = 0%nat) then None else last chatMessages
  end.

(** The value of the chat list's badge expression
    [unreadCounts[id] && unreadCounts[id] > 0 && <div>...</div>]: [&&]
    yields its first falsy operand, so a missing counter gives [undefined],
    the counter 0 gives the number 0, a negative counter gives [false], and
    a positive one the element, whose text is ['99+'] above 99 and the
    counter otherwise. *)
Inductive BadgeValue :=
  | BadgeUndefined
  | BadgeNumber (n : Z)
  | BadgeFalse
  | BadgeElement (text : string).

Definition unreadBadge (s : ChatState) (chatId : Z) : BadgeValue :=
  match unreadCounts s !! chatId with
  | None => BadgeUndefined
  | Some n =>
      if decide (n = 0) then BadgeNumber n
      else if bool_decide (n > 0)
           then BadgeElement (if bool_decide (n > 99) then "99+" else pretty n)
           else BadgeFalse
  end.


(** [signalRService.onUserOnline], [onUserOffline] and
    [onConnectionStateChanged]: one dispatch each. *)
Definition onUserOnline (now : Z) (p : Provider) (userId : Z) (username : string)
  : Provider :=
  dispatch now (USER_ONLINE (mkOnlineUser userId username)) p.

Definition onUserOffline (now : Z) (p : Provider) (userId : Z) (username : string)
  : Provider :=
  dispatch now (USER_OFFLINE userId) p.

Definition onConnectionStateChanged (now : Z) (p : Provider) (connected : bool)
  : Provider :=
  dispatch now (SET_CONNECTION_STATUS connected) p.

(** A run of the reducer over the dispatched actions, each with the reading
    of the clock at the time it is reduced. *)
Definition dispatchAll (actions : list (Z * ChatAction)) (s : ChatState) : ChatState :=
  foldl (λ st na, chatReducer na.1 st na.2) s actions.

(** No unread counter is negative. *)
Definition countersNonNegative (s : ChatState) : Prop :=
  ∀ c n, unreadCounts s !! c = Some n → 0 ≤ n.

(** ** The realtime service's forwarding of typing events *)

(** [this.connection.on('UserTyping', (userId, username, isTyping) =>
    this.onUserTyping?.(userId, username, isTyping))] of [SignalRService]
    (both versions): the registered handler, if any, is called with three
    arguments, so its optional fourth parameter [chatId] is [undefined]. *)
Definition connectionOnUserTyping {St : Type}
    (onUserTypingHandler : option (Z → string → bool → option Z → St → St))
    (userId : Z) (username : string) (isTyping : bool) (st : St) : St :=
  match onUserTypingHandler with
  | Some handler => handler userId username isTyping None st
  | None => st
  end.

(** The handler that [ChatProvider] registers with the service. *)
Definition providerTypingHandler (now : Z) (captured : ChatState)
  : Z → string → bool → option Z → Provider → Provider :=
  λ userId username isTyping chatId p,
    onUserTyping now captured p userId username isTyping chatId.

(** ** [normalizeChat] and [findExistingDirectChat] *)

(** What the API may send for a participant and for a chat ([rawChat: any]):
    the fields that [normalizeChat] tests may be absent. *)
Record RawParticipant := mkRawParticipant {
  rp_chatId : option Z;
  rp_userId : Z;
  rp_joinedAt : option string;
  rp_user : option User;
  rp_username : option string
}.

Record RawChat := mkRawChat {
  rc_id : Z;
  rc_name : string;
  rc_type : option ChatType;
  rc_createdAt : string;
  rc_participants : option (list RawParticipant);
  rc_messages : option (list Message)
}.

(** [n || d] for an optional number: [undefined] and 0 are falsy. *)
Definition num_or (n : option Z) (d : Z) : Z :=
  match n with
  | Some v => if decide (v = 0) then d else v
  | None => d
  end.

(** The callback of [rawChat.participants?.map(...)]. [clock false] is the
    reading [new Date().toISOString()] for [joinedAt], [clock true] the one
    for the synthesised user's [createdAt]. *)
Definition normalizeParticipant (clock : bool → string) (rawChatId : Z)
    (participant : RawParticipant) : ChatParticipant :=
  {| p_chatId := num_or (rp_chatId participant) rawChatId;
     p_userId := rp_userId participant;
     p_joinedAt := str_or (rp_joinedAt participant) (clock false);
     p_user :=
       Some (match rp_user participant with
             | Some u => u
             | None =>
                 {| u_id := rp_userId participant;
                    u_username := str_or (rp_username participant) unknownUser;
                    u_createdAt := str_or (rp_joinedAt participant) (clock true) |}
             end);
     p_username :=
       Some (str_or (rp_username participant)
                    (str_or (u_username <$> rp_user participant) unknownUser)) |}.

(** [normalizeChat]; [clock i] gives the clock readings for the participant
    at index [i]. *)
Definition normalizeChat (clock : nat → bool → string) (rawChat : RawChat) : Chat :=
  {| c_id := rc_id rawChat;
     c_name := rc_name rawChat;
     c_type := default direct (rc_type rawChat);
     c_createdAt := rc_createdAt rawChat;
     c_participants :=
       match rc_participants rawChat with
       | Some ps => imap (λ i, normalizeParticipant (clock i) (rc_id rawChat)) ps
       | None => []
       end;
     c_messages := default [] (rc_messages rawChat) |}.

(** A [Chat] handed to code that takes [any]: every field is present. *)
Definition asRawParticipant (q : ChatParticipant) : RawParticipant :=
  {| rp_chatId := Some (p_chatId q);
     rp_userId := p_userId q;
     rp_joinedAt := Some (p_joinedAt q);
     rp_user := p_user q;
     rp_username := p_username q |}.

Definition asRawChat (chat : Chat) : RawChat :=
  {| rc_id := c_id chat;
     rc_name := c_name chat;
     rc_type := Some (c_type chat);
     rc_createdAt := c_createdAt chat;
     rc_participants := Some (asRawParticipant <$> c_participants chat);
     rc_messages := Some (c_messages chat) |}.

(** The callback of [chats.find(...)] in [findExistingDirectChat]. *)
Definition isDirectChatBetween (currentUserId otherUserId : Z) (chat : Chat) : bool :=
  match c_type chat with
  | group => false
  | direct =>
      if decide (length (c_participants chat) ≠ 2%nat) then false
      else
        let participantIds := p_userId <$> c_participants chat in
        bool_decide (currentUserId ∈ participantIds)
        && bool_decide (otherUserId ∈ participantIds)
  end.

Definition findExistingDirectChat (chats : list Chat) (currentUserId otherUserId : Z)
  : option Chat :=
  find (isDirectChatBetween currentUserId otherUserId) chats.

Definition store_typing (c : Z) (l : list TypingUser) : ChatState :=
  chatReducer 0 initialState (SET_TYPING c l).

(** ** [MessageEmitter] ([src/utils/messageEmitter.ts]) *)

(** [listeners] is a plain object: [this.listeners[event]] finds the array
    registered for the event (an own property), or else whatever
    [Object.prototype] holds under that name, or [undefined]. The table below
    holds the own properties, in registration order; a callback is known by
    its identity (the emitter compares callbacks with [!==]). What
    [Object.prototype] holds is a function or an object: truthy, and without
    [push], [filter] or [forEach], so the method call on it throws a
    TypeError, which is [None] here. Callbacks are taken not to call back
    into the emitter. *)
Module MessageEmitter.

(** The property names of [Object.prototype]. *)
Definition inheritedFromObject : list string :=
  ["constructor"; "hasOwnProperty"; "isPrototypeOf"; "propertyIsEnumerable";
   "toLocaleString"; "toString"; "valueOf"; "__proto__";
   "__defineGetter__"; "__defineSetter__"; "__lookupGetter__"; "__lookupSetter__"].

(** What [this.listeners[event]] evaluates to. *)
Inductive Slot :=
  | Registered (callbacks : list nat)
  | Inherited
  | Missing.

Definition slot (listeners : gmap string (list nat)) (event : string) : Slot :=
  match listeners !! event with
  | Some callbacks => Registered callbacks
  | None => if decide (event ∈ inheritedFromObject) then Inherited else Missing
  end.

Definition on (event : string) (callback : nat)
    (listeners : gmap string (list nat)) : option (gmap string (list nat)) :=
  match slot listeners event with
  | Registered callbacks => Some (<[event := callbacks ++ [callback]]> listeners)
  | Missing => Some (<[event := [callback]]> listeners)
  | Inherited => None
  end.

Definition off (event : string) (callback : nat)
    (listeners : gmap string (list nat)) : option (gmap string (list nat)) :=
  match slot listeners event with
  | Registered callbacks =>
      Some (<[event := filter (λ cb, cb ≠ callback) callbacks]> listeners)
  | Missing => Some listeners
  | Inherited => None
  end.

(** [emit] calls every listener of the event in order; an error thrown by
    one ([throws]) is caught and logged, and the next one is called. The
    result is the sequence of calls made, each with whether it threw. *)
Definition emit (throws : nat → bool) (event : string)
    (listeners : gmap string (list nat)) : option (list (nat * bool)) :=
  match slot listeners event with
  | Registered callbacks => Some ((λ cb, (cb, throws cb)) <$> callbacks)
  | Missing => Some []
  | Inherited => None
  end.

(** One call after another: a TypeError ends the sequence. *)
Definition andThen {A B : Type} (result : option A) (next : A → option B)
  : option B :=
  match result with
  | Some value => next value
  | None => None
  end.

End MessageEmitter.

(** ** The reconnection policy of [SignalRService] *)

Definition maxReconnectAttempts : Z := 5.

(** [nextRetryDelayInMilliseconds]; [None] is [null], "stop retrying". *)
Definition nextRetryDelayInMilliseconds (previousRetryCount : nat) : option Z :=
  if bool_decide (Z.of_nat previousRetryCount >= maxReconnectAttempts) then None
  else Some (Z.min (1000 * Z.pow 2 (Z.of_nat previousRetryCount)) 30000).

(** ** [check-backend.js] *)

Module CheckBackend.

Inductive Protocol := https | http.

Definition protocolName (protocol : Protocol) : string :=
  match protocol with https => "https" | http => "http" end.

Definition ports : list Z := [5093; 7267; 5000; 7000].
Definition hosts : list string := ["localhost"; "127.0.0.1"].

Record EndpointResult := mkEndpointResult {
  success : bool;
  url : string;
  status : option Z
}.

Definition endpointUrl (protocol : Protocol) (host : string) (port : Z) : string :=
  protocolName protocol +:+ "://" +:+ host +:+ ":" +:+ pretty port.

(** [checkEndpoint]. [respond] is the network: the status code of the
    response to [GET /api/users], or [None] for an error or a timeout. *)
Definition checkEndpoint (respond : Protocol → string → Z → option Z)
    (protocol : Protocol) (host : string) (port : Z) : EndpointResult :=
  match respond protocol host port with
  | Some statusCode =>
      {| success := true; url := endpointUrl protocol host port;
         status := Some statusCode |}
  | None =>
      {| success := false; url := endpointUrl protocol host port;
         status := None |}
  end.

(** The inner loop of [checkAllEndpoints], over the ports of one host. *)
Fixpoint checkPorts (respond : Protocol → string → Z → option Z)
    (host : string) (remaining : list Z) : option string :=
  match remaining with
  | [] => None
  | port :: rest =>
      let httpsResult := checkEndpoint respond https host port in
      if success httpsResult then Some (url httpsResult)
      else
        let httpResult := checkEndpoint respond http host port in
        if success httpResult then Some (url httpResult)
        else checkPorts respond host rest
  end.

(** The outer loop, over the hosts. *)
Fixpoint checkHosts (respond : Protocol → string → Z → option Z)
    (remaining : list string) : option string :=
  match remaining with
  | [] => None
  | host :: rest =>
      match checkPorts respond host ports with
      | Some found => Some found
      | None => checkHosts respond rest
      end
  end.

Definition checkAllEndpoints (respond : Protocol → string → Z → option Z)
  : option string :=
  checkHosts respond hosts.

End CheckBackend.

(** ** [createChat], [loadChats] and [loadMessages] *)

Inductive CreateRequest :=
  | CreateOrGetDirectChat (userId1 userId2 : Z)
  | CreateGroupChat (name : string) (participantUserIds : list Z).

Definition invalidParticipants : JsError :=
  mkError "Invalid participant IDs for direct chat".

(** [createChat], up to its first [await]: the gateway request it issues, or
    the error it throws before issuing any ([if (otherUserId)] is false for
    [undefined] and for 0). *)
Definition createChat_request (p : Provider) (name : string)
    (participantIds : list Z) : CreateRequest + JsError :=
  if decide (length participantIds = 2%nat) then
    match find (λ id, bool_decide (id ≠ u_id (user p))) participantIds with
    | Some otherUserId =>
        if decide (otherUserId = 0) then inr invalidParticipants
        else inl (CreateOrGetDirectChat (u_id (user p)) otherUserId)
    | None => inr invalidParticipants
    end
  else inl (CreateGroupChat name participantIds).

Record CreateOutcome := mkCreateOutcome {
  co_provider : Provider;
  co_effects : list Effect;
  co_raised : option JsError;
  co_chat : option Chat
}.

(** [createChat], from the gateway's answer to [await joinChat].
    [captured] is the store of the render that made this [createChat]: the
    lookup [state.chats.findIndex(...)] reads it. *)
Definition createChat_resume (clock : nat → bool → string) (now : Z)
    (captured : ChatState) (p : Provider) (result : RawChat + JsError)
  : CreateOutcome :=
  match result with
  | inl rawChat =>
      let normalizedChat := normalizeChat clock rawChat in
      let p1 :=
        match find (λ chat, bool_decide (c_id chat = c_id normalizedChat))
                   (chats captured) with
        | None => dispatch now (ADD_CHAT normalizedChat) p
        | Some _ => p
        end in
      {| co_provider := p1; co_effects := [JoinChat (c_id normalizedChat)];
         co_raised := None; co_chat := Some normalizedChat |}
  | inr error =>
      {| co_provider := p; co_effects := []; co_raised := Some error;
         co_chat := None |}
  end.

(** [createChat], from the outcome of [joinChat] on ([None] when it
    resolved): the chat is selected and its messages are requested, or the
    error is rethrown. *)
Definition createChat_finish (now : Z) (p : Provider) (normalizedChat : Chat)
    (joinFailure : option JsError) : CreateOutcome :=
  match joinFailure with
  | None =>
      {| co_provider := dispatch now (SET_ACTIVE_CHAT (Some normalizedChat)) p;
         co_effects := [LoadMessages (c_id normalizedChat)];
         co_raised := None; co_chat := Some normalizedChat |}
  | Some error =>
      {| co_provider := p; co_effects := []; co_raised := Some error;
         co_chat := None |}
  end.


(** [loadMessages], once the fetch and the enrichment have both settled:
    [inl] carries the enriched messages, [inr] the error of whichever
    failed, which is logged and not rethrown. *)
Definition loadMessages_resume (now : Z) (p : Provider) (chatId : Z)
    (result : list Message + JsError) : Outcome :=
  match result with
  | inl enrichedMessages =>
      {| out_provider := dispatch now (SET_MESSAGES chatId enrichedMessages) p;
         out_effects := []; out_raised := None |}
  | inr _ => {| out_provider := p; out_effects := []; out_raised := None |}
  end.

Definition raw_bob_by_name : RawParticipant :=
  mkRawParticipant None 2 None None (Some "bob").
Definition raw_alice_full : RawParticipant :=
  mkRawParticipant (Some 7) 1 (Some "2024-01-03") (Some alice) None.
Definition raw_chat7 : RawChat :=
  mkRawChat 7 EmptyString None "2024-01-03" (Some [raw_alice_full; raw_bob_by_name]) None.
Definition iso_clock : nat → bool → string := λ _ _, "2024-05-01T10:00:00.000Z".

(** A network in which only http://127.0.0.1:7000 answers, with 404. *)
Definition only_http_7000 : CheckBackend.Protocol → string → Z → option Z :=
  λ protocol host port,
    match protocol with
    | CheckBackend.http =>
        if decide (host = "127.0.0.1") then
          if decide (port = 7000) then Some 404 else None
        else None
    | CheckBackend.https => None
    end.

(** Alice's provider right after [setActiveChat(chat7)], before the effect
    that copies the store's active chat into [activeChatRef] has run. *)
Definition alice_selecting_chat7 : Provider :=
  (setActiveChat 0 (Some chat7) (setOnNewMessage (Some 1%nat) (fresh_provider alice))).1.

(** * Properties *)

(** ** Reading the store after a dispatch *)

Lemma timeline_set_messages s ms trigger c :
  timeline (set_messages s ms trigger) c = default [] (ms !! c).
Proof. reflexivity. Qed.

Lemma timeline_insert_eq s c l trigger :
  timeline (set_messages s (<[c := l]> (messages s)) trigger) c = l.
Proof. rewrite timeline_set_messages, lookup_insert_eq. reflexivity. Qed.

Lemma timeline_insert_ne s c c' l trigger :
  c ≠ c' →
  timeline (set_messages s (<[c := l]> (messages s)) trigger) c' = timeline s c'.
Proof.
  intros Hne. rewrite timeline_set_messages, lookup_insert_ne by done.
  reflexivity.
Qed.

Lemma toMessage_chatId now d : m_chatId (toMessage now (Light d)) = d_chatId d.
Proof. reflexivity. Qed.

Lemma toMessage_Full_sender m u :
  m_sender m = Some u → ∀ now, toMessage now (Full m) = m.
Proof. intros Hs now. unfold toMessage. rewrite Hs. reflexivity. Qed.

Lemma messageExists_app l1 l2 m :
  messageExists (l1 ++ l2) m = messageExists l1 m || messageExists l2 m.
Proof. apply existsb_app. Qed.

Lemma messageExists_true l m :
  messageExists l m = true ↔ ∃ msg, msg ∈ l ∧ sameMessage m msg = true.
Proof.
  unfold messageExists. rewrite existsb_exists.
  split; intros (msg & Hin & Hsame); exists msg; split; try done;
    by apply list_elem_of_In.
Qed.

Lemma messageExists_false l m :
  messageExists l m = false ↔ ∀ msg, msg ∈ l → sameMessage m msg = false.
Proof.
  split.
  - intros Hex msg Hin. destruct (sameMessage m msg) eqn:Hsame; [|done].
    assert (messageExists l m = true) as Habs
      by (apply messageExists_true; eauto).
    congruence.
  - intros Hall. destruct (messageExists l m) eqn:Hex; [|done].
    apply messageExists_true in Hex as (msg & Hin & Hsame).
    rewrite (Hall msg Hin) in Hsame. done.
Qed.

(** The two ways out of the [ADD_MESSAGE] case. *)
Lemma add_message_duplicate now s payload :
  messageExists (timeline s (m_chatId (toMessage now payload)))
                (toMessage now payload) = true →
  chatReducer now s (ADD_MESSAGE payload) = s.
Proof. intros Hex. simpl. rewrite Hex. reflexivity. Qed.

Lemma add_message_fresh now s payload :
  messageExists (timeline s (m_chatId (toMessage now payload)))
                (toMessage now payload) = false →
  chatReducer now s (ADD_MESSAGE payload) =
  set_messages s
    (<[m_chatId (toMessage now payload) :=
         timeline s (m_chatId (toMessage now payload)) ++ [toMessage now payload]]>
       (messages s))
    (messageUpdateTrigger s + 1).
Proof. intros Hex. simpl. rewrite Hex. reflexivity. Qed.

Lemma add_message_fresh_timeline now s payload :
  messageExists (timeline s (m_chatId (toMessage now payload)))
                (toMessage now payload) = false →
  timeline (chatReducer now s (ADD_MESSAGE payload))
           (m_chatId (toMessage now payload))
  = timeline s (m_chatId (toMessage now payload)) ++ [toMessage now payload].
Proof.
  intros Hex. rewrite add_message_fresh by done. apply timeline_insert_eq.
Qed.

(** ** The deduplication test *)

Lemma sameMessage_by_id newMessage msg :
  m_id msg > 0 → m_id newMessage > 0 →
  sameMessage newMessage msg = bool_decide (m_id msg = m_id newMessage).
Proof.
  intros Hmsg Hnew. unfold sameMessage.
  rewrite !bool_decide_eq_true_2 by done. reflexivity.
Qed.

Lemma sameMessage_fuzzy newMessage msg :
  ¬ (m_id msg > 0 ∧ m_id newMessage > 0) →
  sameMessage newMessage msg =
    bool_decide (m_senderId msg = m_senderId newMessage)
    && bool_decide (m_content msg = m_content newMessage)
    && timeClose (m_timestamp msg) (m_timestamp newMessage).
Proof.
  intros Hno. unfold sameMessage.
  destruct (bool_decide (m_id msg > 0)) eqn:H1;
    destruct (bool_decide (m_id newMessage > 0)) eqn:H2; simpl; try done.
  apply bool_decide_eq_true in H1, H2. tauto.
Qed.

Lemma timeClose_Time a b :
  timeClose (Time a) (Time b) = bool_decide (Z.abs (a - b) < 500).
Proof. reflexivity. Qed.

(** C3. When the incoming message and a stored message both have a positive
    numeric id, the deduplication test answers for this pair exactly whether
    the two ids are equal; the answer is the same for any other pair of
    messages with these two ids, whatever their content, sender or
    timestamp, so the fuzzy comparison plays no part. Over a timeline that
    holds the stored message, the test [currentMessages.some(...)] succeeds
    if the ids are equal and otherwise answers as it does for the timeline
    without that message. In the reducer: with the stored message in the
    payload's chat, an incoming message with the same id is dropped (the
    state is returned as it is) however much it differs otherwise, and when
    every stored message of the chat has a positive id other than the
    incoming one, the incoming message is appended however much it resembles
    one of them. *)
Theorem id_match_precedence (newMessage msg : Message) :
  m_id msg > 0 → m_id newMessage > 0 →
  sameMessage newMessage msg = bool_decide (m_id msg = m_id newMessage)
  ∧ (∀ newMessage' msg' : Message,
       m_id msg' = m_id msg → m_id newMessage' = m_id newMessage →
       sameMessage newMessage' msg' = sameMessage newMessage msg)
  ∧ (∀ before after : list Message,
       messageExists (before ++ msg :: after) newMessage
       = bool_decide (m_id msg = m_id newMessage)
         || messageExists (before ++ after) newMessage)
  ∧ (∀ (now : Z) (s : ChatState) (payload : AddPayload),
       toMessage now payload = newMessage →
       msg ∈ timeline s (m_chatId newMessage) →
       (m_id msg = m_id newMessage →
        chatReducer now s (ADD_MESSAGE payload) = s)
       ∧ ((∀ other, other ∈ timeline s (m_chatId newMessage) →
             m_id other > 0 ∧ m_id other ≠ m_id newMessage) →
          timeline (chatReducer now s (ADD_MESSAGE payload)) (m_chatId newMessage)
          = timeline s (m_chatId newMessage) ++ [newMessage])).
Proof.
  intros Hmsg Hnew. split; [|split; [|split]].
  - by apply sameMessage_by_id.
  - intros newMessage' msg' Hm Hn.
    rewrite !sameMessage_by_id by (rewrite ?Hm, ?Hn; done).
    by rewrite Hm, Hn.
  - intros before after. rewrite !messageExists_app.
    unfold messageExists at 2. cbn [existsb].
    fold (messageExists after newMessage).
    rewrite sameMessage_by_id by done.
    destruct (messageExists before newMessage),
             (bool_decide (m_id msg = m_id newMessage)),
             (messageExists after newMessage); reflexivity.
  - intros now s payload Hpayload Hin. split.
    + intros Hid. apply add_message_duplicate. rewrite Hpayload.
      apply messageExists_true. exists msg. split; [done|].
      rewrite sameMessage_by_id by done. by apply bool_decide_eq_true.
    + intros Hall.
      pose proof (add_message_fresh_timeline now s payload) as Hadd.
      rewrite Hpayload in Hadd. apply Hadd.
      apply messageExists_false. intros other Hother.
      destruct (Hall other Hother) as [Hpos Hne].
      rewrite sameMessage_by_id by done. by apply bool_decide_eq_false.
Qed.

Lemma id_match_precedence_witness :
  m_id stored_555 > 0 ∧ m_id incoming_555 > 0
  ∧ sameMessage incoming_555 stored_555 = bool_decide (m_id stored_555 = m_id incoming_555)
  ∧ chatReducer 0 (store_with 7 [stored_555]) (ADD_MESSAGE (Full incoming_555))
    = store_with 7 [stored_555]
  ∧ timeline (chatReducer 0 (store_with 7 [stored_555])
                (ADD_MESSAGE (Full (mkMessage 556 7 2 (Some bob) "hello"
                                      (Time 1700000000000) sent)))) 7
    = [stored_555; mkMessage 556 7 2 (Some bob) "hello" (Time 1700000000000) sent].
Proof.
  assert (m_id stored_555 > 0) as H1 by (simpl; lia).
  assert (m_id incoming_555 > 0) as H2 by (simpl; lia).
  split; [exact H1|]. split; [exact H2|]. split; [|split].
  - exact (proj1 (id_match_precedence incoming_555 stored_555 H1 H2)).
  - refine (proj1 (proj2 (proj2 (proj2 (id_match_precedence incoming_555 stored_555
              H1 H2))) 0 (store_with 7 [stored_555]) (Full incoming_555) _ _) _).
    + reflexivity.
    + vm_compute. apply list_elem_of_here.
    + reflexivity.
  - refine (proj2 (proj2 (proj2 (proj2 (id_match_precedence
              (mkMessage 556 7 2 (Some bob) "hello" (Time 1700000000000) sent)
              stored_555 H1 _))) 0 (store_with 7 [stored_555])
              (Full (mkMessage 556 7 2 (Some bob) "hello" (Time 1700000000000) sent))
              _ _) _).
    + simpl. lia.
    + reflexivity.
    + vm_compute. apply list_elem_of_here.
    + intros other Hother. vm_compute in Hother.
      apply list_elem_of_singleton in Hother as ->. simpl. lia.
Defined.

(** C5. When the id test does not apply (one of the two ids is not
    positive), a stored message and an incoming one with the same sender and
    the same content are duplicates if their timestamps are less than 500ms
    apart, and the incoming one is then dropped; from 500ms on, so at 501ms,
    they are not, and a timeline holding the stored message keeps both. *)
Theorem fuzzy_match_window (now : Z) (s : ChatState) (payload : AddPayload)
    (newMessage msg : Message) (a b : Z) :
  toMessage now payload = newMessage →
  ¬ (m_id msg > 0 ∧ m_id newMessage > 0) →
  m_senderId msg = m_senderId newMessage →
  m_content msg = m_content newMessage →
  m_timestamp msg = Time a →
  m_timestamp newMessage = Time b →
  (Z.abs (b - a) < 500 →
     sameMessage newMessage msg = true
     ∧ (msg ∈ timeline s (m_chatId newMessage) →
        chatReducer now s (ADD_MESSAGE payload) = s))
  ∧ (500 ≤ Z.abs (b - a) →
     sameMessage newMessage msg = false
     ∧ (timeline s (m_chatId newMessage) = [msg] →
        timeline (chatReducer now s (ADD_MESSAGE payload)) (m_chatId newMessage)
        = [msg; newMessage])).
Proof.
  intros Hnew Hids Hsender Hcontent Ha Hb.
  assert (sameMessage newMessage msg = bool_decide (Z.abs (a - b) < 500)) as Hsame.
  { rewrite sameMessage_fuzzy by done.
    rewrite Ha, Hb, timeClose_Time.
    rewrite !bool_decide_eq_true_2 by done. reflexivity. }
  split; intros Hwin.
  - assert (sameMessage newMessage msg = true) as Htrue.
    { rewrite Hsame. apply bool_decide_eq_true. lia. }
    split; [done|]. intros Hin.
    apply add_message_duplicate. rewrite Hnew.
    apply messageExists_true. eauto.
  - assert (sameMessage newMessage msg = false) as Hfalse.
    { rewrite Hsame. apply bool_decide_eq_false. lia. }
    split; [done|]. intros Htl.
    pose proof (add_message_fresh_timeline now s payload) as Hfresh.
    rewrite Hnew, Htl in Hfresh. apply Hfresh.
    simpl. by rewrite Hfalse.
Qed.

Lemma fuzzy_match_window_witness :
  chatReducer 0 (store_with 7 [stored_local]) (ADD_MESSAGE (Full (incoming_at 1700000000499)))
  = store_with 7 [stored_local]
  ∧ timeline (chatReducer 0 (store_with 7 [stored_local])
                (ADD_MESSAGE (Full (incoming_at 1700000000501)))) 7
    = [stored_local; incoming_at 1700000000501].
Proof.
  split.
  - refine (proj2 (proj1 (fuzzy_match_window 0 (store_with 7 [stored_local])
              (Full (incoming_at 1700000000499)) (incoming_at 1700000000499)
              stored_local 1700000000000 1700000000499 _ _ _ _ _ _) _) _).
    + reflexivity.
    + simpl. lia.
    + reflexivity.
    + reflexivity.
    + reflexivity.
    + reflexivity.
    + simpl. lia.
    + vm_compute. apply list_elem_of_here.
  - refine (proj2 (proj2 (fuzzy_match_window 0 (store_with 7 [stored_local])
              (Full (incoming_at 1700000000501)) (incoming_at 1700000000501)
              stored_local 1700000000000 1700000000501 _ _ _ _ _ _) _) _).
    + reflexivity.
    + simpl. lia.
    + reflexivity.
    + reflexivity.
    + reflexivity.
    + reflexivity.
    + simpl. lia.
    + reflexivity.
Defined.

(** ** The message-received handler and the timelines *)

Lemma dispatch_state now a p : state (dispatch now a p) = chatReducer now (state p) a.
Proof. reflexivity. Qed.

Lemma increment_unread_messages now s c :
  messages (chatReducer now s (INCREMENT_UNREAD c)) = messages s.
Proof. reflexivity. Qed.

(** The handler touches the timelines only through its [ADD_MESSAGE]. *)
Lemma onReceiveMessage_messages now p d :
  messages (state (onReceiveMessage now p d).1)
  = messages (chatReducer now (state p) (ADD_MESSAGE (Light d))).
Proof.
  unfold onReceiveMessage.
  destruct (negb (isActiveChat p (d_chatId d))
            && negb (bool_decide (d_senderId d = u_id (user p)))); reflexivity.
Qed.

Lemma onReceiveMessage_timeline now p d c :
  timeline (state (onReceiveMessage now p d).1) c
  = timeline (chatReducer now (state p) (ADD_MESSAGE (Light d))) c.
Proof. unfold timeline. by rewrite onReceiveMessage_messages. Qed.

Lemma onReceiveMessage_user now p d : user (onReceiveMessage now p d).1 = user p.
Proof.
  unfold onReceiveMessage.
  destruct (negb (isActiveChat p (d_chatId d))
            && negb (bool_decide (d_senderId d = u_id (user p)))); reflexivity.
Qed.

Lemma tempMessage_toMessage now p tempId stamp chatId content :
  toMessage now (Full (tempMessage p tempId stamp chatId content))
  = tempMessage p tempId stamp chatId content.
Proof. reflexivity. Qed.

(** The optimistic echo lands at the end of the timeline unless the
    deduplication test takes it for a stored message. *)
Lemma sendMessage_request_timeline tempId stamp p chatId content :
  messageExists (timeline (state p) chatId)
                (tempMessage p tempId stamp chatId content) = false →
  timeline (state (sendMessage_request tempId stamp p chatId content).1) chatId
  = timeline (state p) chatId ++ [tempMessage p tempId stamp chatId content].
Proof.
  intros Hfresh.
  exact (add_message_fresh_timeline stamp (state p)
           (Full (tempMessage p tempId stamp chatId content)) Hfresh).
Qed.

(** C1, as the code has it. Once [sendMessage] has appended its echo, a
    message-received event for the same chat with the same content and
    sender and a timestamp within 400ms of the echo's leaves every timeline
    as it is, provided the id test does not stand in the way: the echo's
    provisional id or the event's id is not positive, or the two ids are
    equal. When both ids are positive and differ, the echo does not match
    the event, and unless another stored message does, the event is appended
    after the echo. *)
Theorem echo_absorbed_unless_ids_differ (now tempId stamp : Z) (p : Provider)
    (chatId : Z) (content : string) (d : MessageData) (t : Z) :
  messageExists (timeline (state p) chatId)
                (tempMessage p tempId stamp chatId content) = false →
  d_chatId d = chatId →
  d_content d = content →
  d_senderId d = u_id (user p) →
  d_timestamp d = Time t →
  Z.abs (t - stamp) ≤ 400 →
  (¬ (tempId > 0 ∧ m_id (toMessage now (Light d)) > 0)
   ∨ m_id (toMessage now (Light d)) = tempId →
   messages (state (onReceiveMessage now
               (sendMessage_request tempId stamp p chatId content).1 d).1)
   = messages (state (sendMessage_request tempId stamp p chatId content).1)
   ∧ length (timeline (state (onReceiveMessage now
               (sendMessage_request tempId stamp p chatId content).1 d).1) chatId)
     = length (timeline (state (sendMessage_request tempId stamp p chatId content).1) chatId))
  ∧ (tempId > 0 → m_id (toMessage now (Light d)) > 0 →
     m_id (toMessage now (Light d)) ≠ tempId →
     sameMessage (toMessage now (Light d)) (tempMessage p tempId stamp chatId content) = false
     ∧ (messageExists (timeline (state p) chatId) (toMessage now (Light d)) = false →
        timeline (state (onReceiveMessage now
               (sendMessage_request tempId stamp p chatId content).1 d).1) chatId
        = timeline (state p) chatId
          ++ [tempMessage p tempId stamp chatId content; toMessage now (Light d)])).
Proof.
  intros Hfresh Hchat Hcontent Hsender Hts Hnear.
  pose proof (sendMessage_request_timeline tempId stamp p chatId content Hfresh) as Htl.
  set (p1 := (sendMessage_request tempId stamp p chatId content).1) in *.
  set (echo := tempMessage p tempId stamp chatId content) in *.
  set (newMessage := toMessage now (Light d)) in *.
  assert (m_chatId newMessage = chatId) as Hc by (by subst newMessage; simpl).
  split.
  - intros Hids.
    assert (sameMessage newMessage echo = true) as Hsame.
    { destruct (decide (m_id echo > 0 ∧ m_id newMessage > 0)) as [[H1 H2]|Hno].
      - rewrite sameMessage_by_id by done.
        apply bool_decide_eq_true. change (m_id echo) with tempId in *.
        destruct Hids as [Hids|Hids]; [tauto|done].
      - rewrite sameMessage_fuzzy by done.
        subst newMessage echo. simpl. rewrite Hsender, Hcontent, Hts.
        rewrite !bool_decide_eq_true_2 by done. simpl.
        rewrite timeClose_Time. apply bool_decide_eq_true. lia. }
    assert (chatReducer now (state p1) (ADD_MESSAGE (Light d)) = state p1) as Hred.
    { apply add_message_duplicate. fold newMessage. rewrite Hc, Htl.
      rewrite messageExists_app. apply orb_true_iff. right.
      simpl. by rewrite Hsame. }
    assert (messages (state (onReceiveMessage now p1 d).1) = messages (state p1)) as Hm.
    { by rewrite onReceiveMessage_messages, Hred. }
    split; [done|]. unfold timeline. by rewrite Hm.
  - intros Htemp Hev Hne.
    assert (sameMessage newMessage echo = false) as Hsame.
    { rewrite sameMessage_by_id by done.
      apply bool_decide_eq_false. change (m_id echo) with tempId. congruence. }
    split; [done|]. intros Hother.
    rewrite onReceiveMessage_timeline.
    pose proof (add_message_fresh_timeline now (state p1) (Light d)) as Hadd.
    fold newMessage in Hadd. rewrite Hc, Htl in Hadd.
    rewrite Hadd.
    + by rewrite <- app_assoc.
    + rewrite messageExists_app, Hother. simpl. by rewrite Hsame.
Qed.

Lemma echo_absorbed_unless_ids_differ_witness :
  length (timeline (state (onReceiveMessage 1700000000450
            (sendMessage_request 1700000000000 1700000000000
               (fresh_provider alice) 7 "hello").1 echo_event_no_id).1) 7)
  = length (timeline (state (sendMessage_request 1700000000000 1700000000000
               (fresh_provider alice) 7 "hello").1) 7).
Proof.
  refine (proj2 (proj1 (echo_absorbed_unless_ids_differ 1700000000450
            1700000000000 1700000000000 (fresh_provider alice) 7 "hello"
            echo_event_no_id 1700000000400 _ _ _ _ _ _) _)).
  - reflexivity.
  - reflexivity.
  - reflexivity.
  - reflexivity.
  - reflexivity.
  - simpl. lia.
  - left. simpl. lia.
Defined.

(** C1 fails as stated: chat 7 holds only the echo of "hello" (provisional id
    1700000000000); the event for the same chat, sender and content, 400ms
    later, carries id 555 and is appended: the timeline grows from 1 to 2. *)
Lemma echo_not_absorbed_counterexample :
  d_chatId echo_event_555 = 7
  ∧ d_content echo_event_555 = "hello"
  ∧ d_senderId echo_event_555 = u_id (user (fresh_provider alice))
  ∧ d_timestamp echo_event_555 = Time (1700000000000 + 400)
  ∧ length (timeline (state (sendMessage_request 1700000000000 1700000000000
               (fresh_provider alice) 7 "hello").1) 7) = 1%nat
  ∧ length (timeline (state (onReceiveMessage 1700000000450
              (sendMessage_request 1700000000000 1700000000000
                 (fresh_provider alice) 7 "hello").1 echo_event_555).1) 7) = 2%nat.
Proof. repeat split. Qed.

(** ** Replaying an event *)

(** A message is its own duplicate as soon as one of the two tests can
    succeed on it: its id is positive, or its timestamp can be read. *)
Lemma sameMessage_self m :
  m_id m > 0 ∨ m_timestamp m ≠ InvalidDate → sameMessage m m = true.
Proof.
  intros Hok.
  destruct (decide (m_id m > 0)) as [Hpos|Hneg].
  - rewrite sameMessage_by_id by done. by apply bool_decide_eq_true.
  - rewrite sameMessage_fuzzy by tauto.
    destruct Hok as [Hpos|Hts]; [done|].
    rewrite !bool_decide_eq_true_2 by done. simpl.
    destruct (m_timestamp m) as [ms|]; [|done].
    rewrite timeClose_Time. apply bool_decide_eq_true. lia.
Qed.

(** Once a message has gone through [ADD_MESSAGE], the same message is a
    duplicate. *)
Lemma add_message_twice now1 now2 s payload :
  toMessage now2 payload = toMessage now1 payload →
  sameMessage (toMessage now1 payload) (toMessage now1 payload) = true →
  chatReducer now2 (chatReducer now1 s (ADD_MESSAGE payload)) (ADD_MESSAGE payload)
  = chatReducer now1 s (ADD_MESSAGE payload).
Proof.
  intros Heq Hself.
  destruct (messageExists (timeline s (m_chatId (toMessage now1 payload)))
                          (toMessage now1 payload)) eqn:Hex.
  - rewrite (add_message_duplicate now1) by done.
    apply add_message_duplicate. by rewrite Heq.
  - apply add_message_duplicate. rewrite Heq.
    rewrite add_message_fresh_timeline by done.
    rewrite messageExists_app. apply orb_true_iff. right.
    simpl. by rewrite Hself.
Qed.

(** What [ADD_MESSAGE] does to the timelines depends on the timelines only. *)
Lemma add_message_messages_ext now s s' payload :
  messages s = messages s' →
  messages (chatReducer now s (ADD_MESSAGE payload))
  = messages (chatReducer now s' (ADD_MESSAGE payload)).
Proof.
  intros Hm. simpl. unfold timeline. rewrite Hm.
  destruct (messageExists _ _); [done|]. reflexivity.
Qed.

(** C2, as the code has it. An event whose id is a number (or whose two
    deliveries are reduced at the same reading of the clock), and that has a
    positive id or a readable timestamp, is absorbed on replay: the second
    delivery leaves every timeline as the first one left it, and a timeline
    that was empty holds exactly one message afterwards. *)
Theorem replay_is_absorbed (now1 now2 : Z) (p : Provider) (d : MessageData) :
  (∃ n, d_id d = NumId n) ∨ now1 = now2 →
  m_id (toMessage now1 (Light d)) > 0 ∨ d_timestamp d ≠ InvalidDate →
  messages (state (onReceiveMessage now2 (onReceiveMessage now1 p d).1 d).1)
  = messages (state (onReceiveMessage now1 p d).1)
  ∧ (timeline (state p) (d_chatId d) = [] →
     timeline (state (onReceiveMessage now2 (onReceiveMessage now1 p d).1 d).1)
              (d_chatId d)
     = [toMessage now1 (Light d)]).
Proof.
  intros Hid Hok.
  assert (toMessage now2 (Light d) = toMessage now1 (Light d)) as Heq.
  { destruct Hid as [[n Hn]| ->]; [|done]. unfold toMessage. simpl. by rewrite Hn. }
  assert (sameMessage (toMessage now1 (Light d)) (toMessage now1 (Light d)) = true)
    as Hself by (by apply sameMessage_self).
  assert (messages (state (onReceiveMessage now2 (onReceiveMessage now1 p d).1 d).1)
          = messages (chatReducer now1 (state p) (ADD_MESSAGE (Light d)))) as Hm.
  { rewrite onReceiveMessage_messages.
    rewrite (add_message_messages_ext now2 _
               (chatReducer now1 (state p) (ADD_MESSAGE (Light d))))
      by apply onReceiveMessage_messages.
    by rewrite add_message_twice. }
  split.
  - by rewrite Hm, onReceiveMessage_messages.
  - intros Hempty. unfold timeline at 1. rewrite Hm.
    pose proof (add_message_fresh_timeline now1 (state p) (Light d)) as Hadd.
    rewrite toMessage_chatId, Hempty in Hadd. apply Hadd. reflexivity.
Qed.

Lemma replay_is_absorbed_witness :
  timeline (state (onReceiveMessage 1700000000200
             (onReceiveMessage 1700000000100 (fresh_provider alice) bob_event_42).1
             bob_event_42).1) 7
  = [toMessage 1700000000100 (Light bob_event_42)].
Proof.
  refine (proj2 (replay_is_absorbed 1700000000100 1700000000200
            (fresh_provider alice) bob_event_42 _ _) _).
  - left. exists 42. reflexivity.
  - left. simpl. lia.
  - reflexivity.
Defined.

(** C2 fails as stated: the same event with a string id, delivered twice,
    is given the reading of the clock as its id at each delivery (here
    1700000000100, then 1700000000101); both ids are positive and differ, so
    the second delivery is appended and the empty timeline of chat 7 ends
    with two messages. *)
Lemma replay_string_id_counterexample :
  timeline (state (fresh_provider alice)) 7 = []
  ∧ length (timeline (state (onReceiveMessage 1700000000100
               (fresh_provider alice) bob_event_str).1) 7) = 1%nat
  ∧ length (timeline (state (onReceiveMessage 1700000000101
               (onReceiveMessage 1700000000100 (fresh_provider alice) bob_event_str).1
               bob_event_str).1) 7) = 2%nat.
Proof. repeat split. Qed.

(** The same happens to an event with neither a positive id nor a readable
    timestamp: no test can recognise it. *)
Example replay_unreadable_timestamp :
  length (timeline (state (onReceiveMessage 5
            (onReceiveMessage 5 (fresh_provider alice)
               (mkMessageData (NumId 0) 7 2 None "hi" InvalidDate sent)).1
            (mkMessageData (NumId 0) 7 2 None "hi" InvalidDate sent)).1) 7) = 2%nat.
Proof. reflexivity. Qed.

(** ** The optimistic send protocol *)

Lemma update_message_timeline now s c messageId u :
  timeline (chatReducer now s (UPDATE_MESSAGE c messageId u)) c
  = map (rewriteWhere messageId u) (timeline s c).
Proof. simpl. apply timeline_insert_eq. Qed.

Lemma update_message_other_timeline now s c c' messageId u :
  c ≠ c' →
  timeline (chatReducer now s (UPDATE_MESSAGE c messageId u)) c' = timeline s c'.
Proof. intros Hne. simpl. by apply timeline_insert_ne. Qed.

Lemma update_message_length now s c messageId u :
  length (timeline (chatReducer now s (UPDATE_MESSAGE c messageId u)) c)
  = length (timeline s c).
Proof. rewrite update_message_timeline. apply length_map. Qed.

Lemma update_message_lookup now s c messageId u (i : nat) msg :
  timeline s c !! i = Some msg →
  timeline (chatReducer now s (UPDATE_MESSAGE c messageId u)) c !! i
  = Some (rewriteWhere messageId u msg).
Proof.
  intros Hi. rewrite update_message_timeline, list_lookup_fmap, Hi. reflexivity.
Qed.

Lemma rewriteWhere_hit messageId u msg :
  m_id msg = messageId → rewriteWhere messageId u msg = applyUpdates msg u.
Proof. intros Hid. unfold rewriteWhere. by rewrite decide_True. Qed.

Lemma rewriteWhere_miss messageId u msg :
  m_id msg ≠ messageId → rewriteWhere messageId u msg = msg.
Proof. intros Hid. unfold rewriteWhere. by rewrite decide_False. Qed.

(** C4. With the optimistic message of [sendMessage] at position [i] of the
    chat's timeline, a successful send whose saved message has another id
    than the provisional one leaves the length of the timeline unchanged,
    leaves at position [i] that message with the saved id, timestamp and
    status (so its id is the server's), leaves every message with another id
    where and as it was, and raises nothing. *)
Theorem optimistic_rewrite_in_place (now tempId stamp : Z) (p : Provider)
    (chatId : Z) (content : string) (savedMessage : Message) (i : nat) :
  timeline (state p) chatId !! i = Some (tempMessage p tempId stamp chatId content) →
  m_id savedMessage ≠ tempId →
  length (timeline (state (out_provider
            (sendMessage_resume now tempId p chatId (inl savedMessage)))) chatId)
  = length (timeline (state p) chatId)
  ∧ timeline (state (out_provider
            (sendMessage_resume now tempId p chatId (inl savedMessage)))) chatId !! i
    = Some {| m_id := m_id savedMessage;
              m_chatId := chatId;
              m_senderId := u_id (user p);
              m_sender := Some (user p);
              m_content := content;
              m_timestamp := m_timestamp savedMessage;
              m_status := m_status savedMessage |}
  ∧ (∀ (j : nat) (msg : Message),
       timeline (state p) chatId !! j = Some msg → m_id msg ≠ tempId →
       timeline (state (out_provider
            (sendMessage_resume now tempId p chatId (inl savedMessage)))) chatId !! j
       = Some msg)
  ∧ out_raised (sendMessage_resume now tempId p chatId (inl savedMessage)) = None.
Proof.
  intros Hecho Hdiff. unfold sendMessage_resume.
  rewrite decide_True by done. cbn [out_provider out_raised].
  rewrite dispatch_state. repeat split.
  - apply update_message_length.
  - rewrite (update_message_lookup _ _ _ _ _ _ _ Hecho).
    rewrite rewriteWhere_hit by done. reflexivity.
  - intros j msg Hj Hid.
    rewrite (update_message_lookup _ _ _ _ _ _ _ Hj).
    by rewrite rewriteWhere_miss.
Qed.

Lemma optimistic_rewrite_in_place_witness :
  timeline (state (out_provider
     (sendMessage_resume 1700000000350 1700000000000
        (sendMessage_request 1700000000000 1700000000001
           (fresh_provider alice) 7 "hello").1 7 (inl saved_555)))) 7 !! 0%nat
  = Some (mkMessage 555 7 1 (Some alice) "hello" (Time 1700000000300) delivered).
Proof.
  refine (proj1 (proj2 (optimistic_rewrite_in_place 1700000000350
            1700000000000 1700000000001
            (sendMessage_request 1700000000000 1700000000001
               (fresh_provider alice) 7 "hello").1
            7 "hello" saved_555 0 _ _))).
  - reflexivity.
  - simpl. lia.
Defined.

(** C8. With the optimistic message of [sendMessage] at position [i] of the
    chat's timeline, a failed send leaves the length of the timeline
    unchanged, leaves at position [i] that message with status [failed] and
    nothing else changed, leaves every message with another id where and as
    it was, raises the error it was given, and asks nothing more of the
    gateway (no second send). *)
Theorem failed_send_is_marked (now tempId stamp : Z) (p : Provider)
    (chatId : Z) (content : string) (error : JsError) (i : nat) :
  timeline (state p) chatId !! i = Some (tempMessage p tempId stamp chatId content) →
  length (timeline (state (out_provider
            (sendMessage_resume now tempId p chatId (inr error)))) chatId)
  = length (timeline (state p) chatId)
  ∧ timeline (state (out_provider
            (sendMessage_resume now tempId p chatId (inr error)))) chatId !! i
    = Some {| m_id := tempId;
              m_chatId := chatId;
              m_senderId := u_id (user p);
              m_sender := Some (user p);
              m_content := content;
              m_timestamp := Time stamp;
              m_status := failed |}
  ∧ (∀ (j : nat) (msg : Message),
       timeline (state p) chatId !! j = Some msg → m_id msg ≠ tempId →
       timeline (state (out_provider
            (sendMessage_resume now tempId p chatId (inr error)))) chatId !! j
       = Some msg)
  ∧ out_raised (sendMessage_resume now tempId p chatId (inr error)) = Some error
  ∧ out_effects (sendMessage_resume now tempId p chatId (inr error)) = [].
Proof.
  intros Hecho. unfold sendMessage_resume.
  cbn [out_provider out_raised out_effects].
  rewrite dispatch_state. repeat split.
  - apply update_message_length.
  - rewrite (update_message_lookup _ _ _ _ _ _ _ Hecho).
    rewrite rewriteWhere_hit by done. reflexivity.
  - intros j msg Hj Hid.
    rewrite (update_message_lookup _ _ _ _ _ _ _ Hj).
    by rewrite rewriteWhere_miss.
Qed.

Lemma failed_send_is_marked_witness :
  timeline (state (out_provider
     (sendMessage_resume 1700000000350 1700000000000
        (sendMessage_request 1700000000000 1700000000001
           (fresh_provider alice) 7 "hello").1 7
        (inr (mkError "Failed to fetch"))))) 7 !! 0%nat
  = Some (mkMessage 1700000000000 7 1 (Some alice) "hello" (Time 1700000000001) failed)
  ∧ out_raised (sendMessage_resume 1700000000350 1700000000000
        (sendMessage_request 1700000000000 1700000000001
           (fresh_provider alice) 7 "hello").1 7
        (inr (mkError "Failed to fetch"))) = Some (mkError "Failed to fetch").
Proof.
  assert (timeline (state (sendMessage_request 1700000000000 1700000000001
                      (fresh_provider alice) 7 "hello").1) 7 !! 0%nat
          = Some (tempMessage (sendMessage_request 1700000000000 1700000000001
                      (fresh_provider alice) 7 "hello").1
                    1700000000000 1700000000001 7 "hello")) as Hecho
    by reflexivity.
  pose proof (failed_send_is_marked 1700000000350 1700000000000 1700000000001
                _ 7 "hello" (mkError "Failed to fetch") 0 Hecho)
    as (_ & Hat & _ & Hraised & _).
  split; [exact Hat | exact Hraised].
Defined.

(** ** Unread counters *)

Lemma add_message_unreadCounts now s payload :
  unreadCounts (chatReducer now s (ADD_MESSAGE payload)) = unreadCounts s.
Proof. simpl. destruct (messageExists _ _); reflexivity. Qed.

Lemma add_message_unread now s payload c :
  unread (chatReducer now s (ADD_MESSAGE payload)) c = unread s c.
Proof. unfold unread. by rewrite add_message_unreadCounts. Qed.

Lemma increment_unread_eq now s c :
  unread (chatReducer now s (INCREMENT_UNREAD c)) c = unread s c + 1.
Proof. unfold unread at 1. simpl. by rewrite lookup_insert_eq. Qed.

Lemma increment_unread_ne now s c c' :
  c ≠ c' → unread (chatReducer now s (INCREMENT_UNREAD c)) c' = unread s c'.
Proof. intros Hne. unfold unread. simpl. by rewrite lookup_insert_ne. Qed.

(** C6, as the code has it. The handler judges "active" by [activeChatRef],
    the copy of the store's active chat that an effect refreshes after each
    render. A message-received event for the chat held in [activeChatRef]
    leaves every unread counter as it is and calls no notification; an event
    for any other chat (or with no chat in [activeChatRef]) from another
    sender than the local user adds exactly one to that chat's counter,
    leaves the other counters alone, and calls the registered notification
    callback, if there is one, once with the chat id, the sender's name (the
    event's [senderUsername], or the placeholder built from the sender id)
    and the content. Whenever [activeChatRef] equals the store's active
    chat, the same holds with the store's active chat. *)
Theorem unread_follows_activeChatRef (now : Z) (p : Provider) (d : MessageData) :
  (∀ a, activeChatRef p = Some a → c_id a = d_chatId d →
     unreadCounts (state (onReceiveMessage now p d).1) = unreadCounts (state p)
     ∧ ∀ callback c name text,
         Notify callback c name text ∉ (onReceiveMessage now p d).2)
  ∧ ((∀ a, activeChatRef p = Some a → c_id a ≠ d_chatId d) →
     d_senderId d ≠ u_id (user p) →
     unread (state (onReceiveMessage now p d).1) (d_chatId d)
     = unread (state p) (d_chatId d) + 1
     ∧ (∀ c, c ≠ d_chatId d →
          unread (state (onReceiveMessage now p d).1) c = unread (state p) c)
     ∧ (∀ callback, newMessageCallbackRef p = Some callback →
          (onReceiveMessage now p d).2
          = [Notify callback (d_chatId d)
               (str_or (d_senderUsername d) (placeholderName (d_senderId d)))
               (d_content d)])
     ∧ (newMessageCallbackRef p = None → (onReceiveMessage now p d).2 = []))
  ∧ (activeChatRef p = activeChat (state p) →
     (∀ a, activeChat (state p) = Some a → c_id a = d_chatId d →
        unreadCounts (state (onReceiveMessage now p d).1) = unreadCounts (state p))
     ∧ ((∀ a, activeChat (state p) = Some a → c_id a ≠ d_chatId d) →
        d_senderId d ≠ u_id (user p) →
        unread (state (onReceiveMessage now p d).1) (d_chatId d)
        = unread (state p) (d_chatId d) + 1)).
Proof.
  assert (∀ a, activeChatRef p = Some a → c_id a = d_chatId d →
            unreadCounts (state (onReceiveMessage now p d).1) = unreadCounts (state p)
            ∧ ∀ callback c name text,
                Notify callback c name text ∉ (onReceiveMessage now p d).2) as Hactive.
  { intros a Ha Hid.
    assert (isActiveChat p (d_chatId d) = true) as Hact.
    { unfold isActiveChat. rewrite Ha. by apply bool_decide_eq_true. }
    unfold onReceiveMessage. rewrite Hact. simpl. split.
    - apply add_message_unreadCounts.
    - intros callback c name text Hin.
      apply list_elem_of_singleton in Hin. discriminate. }
  assert ((∀ a, activeChatRef p = Some a → c_id a ≠ d_chatId d) →
          d_senderId d ≠ u_id (user p) →
          unread (state (onReceiveMessage now p d).1) (d_chatId d)
          = unread (state p) (d_chatId d) + 1
          ∧ (∀ c, c ≠ d_chatId d →
               unread (state (onReceiveMessage now p d).1) c = unread (state p) c)
          ∧ (∀ callback, newMessageCallbackRef p = Some callback →
               (onReceiveMessage now p d).2
               = [Notify callback (d_chatId d)
                    (str_or (d_senderUsername d) (placeholderName (d_senderId d)))
                    (d_content d)])
          ∧ (newMessageCallbackRef p = None → (onReceiveMessage now p d).2 = []))
    as Hother.
  { intros Hne Hsender.
    assert (isActiveChat p (d_chatId d) = false) as Hact.
    { unfold isActiveChat.
      destruct (activeChatRef p) as [a|] eqn:Ha; [|done].
      apply bool_decide_eq_false. intros Heq. by apply (Hne a). }
    unfold onReceiveMessage. rewrite Hact.
    rewrite (bool_decide_eq_false_2 _ Hsender). cbn [negb andb fst snd].
    rewrite !dispatch_state. split; [|split; [|split]].
    - by rewrite increment_unread_eq, add_message_unread.
    - intros c Hc. by rewrite increment_unread_ne, add_message_unread.
    - intros callback Hcb. by rewrite Hcb.
    - intros Hcb. by rewrite Hcb. }
  split; [exact Hactive|]. split; [exact Hother|].
  intros Hsync. split.
  - intros a Ha Hid. rewrite <- Hsync in Ha. by destruct (Hactive a Ha Hid).
  - intros Hne Hsender. rewrite <- Hsync in Hne. by destruct (Hother Hne Hsender).
Qed.

Lemma unread_follows_activeChatRef_witness :
  unreadCounts (state (onReceiveMessage 5 alice_in_chat7 bob_event_42).1)
  = unreadCounts (state alice_in_chat7)
  ∧ unread (state (onReceiveMessage 5 alice_in_chat7 bob_event_chat9).1) 9
    = unread (state alice_in_chat7) 9 + 1
  ∧ (onReceiveMessage 5 alice_in_chat7 bob_event_chat9).2
    = [Notify 1%nat 9 "User 2" "anyone?"].
Proof.
  split; [|split].
  - refine (proj1 (proj1 (unread_follows_activeChatRef 5 alice_in_chat7 bob_event_42)
                     chat7 _ _)); reflexivity.
  - refine (proj1 (proj1 (proj2 (unread_follows_activeChatRef 5 alice_in_chat7
                     bob_event_chat9)) _ _)).
    + intros a Ha. injection Ha as <-. simpl. lia.
    + simpl. lia.
  - refine (proj1 (proj2 (proj2 (proj1 (proj2 (unread_follows_activeChatRef 5
                     alice_in_chat7 bob_event_chat9)) _ _))) 1%nat _).
    + intros a Ha. injection Ha as <-. simpl. lia.
    + simpl. lia.
    + reflexivity.
Defined.

(** C6 fails as stated: right after [setActiveChat(chat7)] the store's
    active chat is chat 7 while [activeChatRef] is still empty; an event from
    user 2 for chat 7, the currently active chat, takes its unread counter
    from 0 to 1 and calls the notification callback. *)
Lemma stale_ref_counts_active_chat_counterexample :
  activeChat (state alice_selecting_chat7) = Some chat7
  ∧ c_id chat7 = d_chatId bob_event_42
  ∧ activeChatRef alice_selecting_chat7 = None
  ∧ unread (state alice_selecting_chat7) 7 = 0
  ∧ unread (state (onReceiveMessage 5 alice_selecting_chat7 bob_event_42).1) 7 = 1
  ∧ (onReceiveMessage 5 alice_selecting_chat7 bob_event_42).2
    = [Notify 1%nat 7 "bob" "hi"].
Proof. repeat split. Qed.

(** ** Deleting a chat *)

(** C7, as the code has it. When the remote delete succeeds, the chat list
    keeps exactly the chats with another id, the active selection is cleared
    if it was this chat and kept otherwise, every message timeline (that of
    the deleted chat too) stays as it was, and nothing is raised. When the
    remote delete fails, the provider is unchanged and the error is raised
    to the caller. *)
Theorem deleteChat_outcome (now : Z) (p : Provider) (chatId : Z) :
  ((∀ chat, chat ∈ chats (state (out_provider (deleteChat_resume now p chatId None)))
            ↔ chat ∈ chats (state p) ∧ c_id chat ≠ chatId)
   ∧ (∀ a, activeChat (state p) = Some a → c_id a = chatId →
        activeChat (state (out_provider (deleteChat_resume now p chatId None))) = None)
   ∧ (∀ a, activeChat (state p) = Some a → c_id a ≠ chatId →
        activeChat (state (out_provider (deleteChat_resume now p chatId None))) = Some a)
   ∧ (activeChat (state p) = None →
        activeChat (state (out_provider (deleteChat_resume now p chatId None))) = None)
   ∧ messages (state (out_provider (deleteChat_resume now p chatId None)))
     = messages (state p)
   ∧ out_raised (deleteChat_resume now p chatId None) = None)
  ∧ (∀ error,
       out_provider (deleteChat_resume now p chatId (Some error)) = p
       ∧ out_raised (deleteChat_resume now p chatId (Some error)) = Some error).
Proof.
  split; [|done]. simpl.
  split; [|split; [|split; [|split; [|split]]]]; try reflexivity.
  - intros chat. rewrite list_elem_of_filter. tauto.
  - intros a Ha Hid. rewrite Ha. by rewrite decide_True.
  - intros a Ha Hid. rewrite Ha. by rewrite decide_False.
  - intros Ha. by rewrite Ha.
Qed.

Lemma deleteChat_outcome_witness :
  activeChat (state (out_provider (deleteChat_resume 0 alice_with_history 7 None))) = None
  ∧ out_provider (deleteChat_resume 0 alice_with_history 7
                    (Some (mkError "Failed to delete chat")))
    = alice_with_history.
Proof.
  split.
  - refine (proj1 (proj2 (proj1 (deleteChat_outcome 0 alice_with_history 7)))
              chat7 _ _); reflexivity.
  - exact (proj1 (proj2 (deleteChat_outcome 0 alice_with_history 7)
                    (mkError "Failed to delete chat"))).
Defined.

(** C7 fails as stated: chat 7 is listed, active, and holds one message;
    after a successful delete it is gone from the list and the selection is
    cleared, but its timeline still holds the message. *)
Lemma deleteChat_keeps_timeline_counterexample :
  timeline (state alice_with_history) 7 = [stored_555]
  ∧ chats (state (out_provider (deleteChat_resume 0 alice_with_history 7 None))) = []
  ∧ activeChat (state (out_provider (deleteChat_resume 0 alice_with_history 7 None))) = None
  ∧ timeline (state (out_provider (deleteChat_resume 0 alice_with_history 7 None))) 7
    = [stored_555]
  ∧ timeline (state (out_provider (deleteChat_resume 0 alice_with_history 7 None))) 7
    ≠ [].
Proof. repeat split. discriminate. Qed.

(** ** Typing events *)

(** C10. A typing-changed event without a chat id, or with chat id 0, leaves
    the provider (store and refs) exactly as it was, whatever the user, the
    name, the flag and the store the handler closed over. *)
Theorem typing_without_chat_is_dropped (now : Z) (captured : ChatState)
    (p : Provider) (userId : Z) (username : string) (isTyping : bool) :
  onUserTyping now captured p userId username isTyping None = p
  ∧ onUserTyping now captured p userId username isTyping (Some 0) = p.
Proof. split; reflexivity. Qed.

(** ** Display names *)

(** [find] returns the one participant that is not the current user,
    wherever it sits in the array. *)
Lemma find_other_participant (ps : list ChatParticipant) (cur : Z) other :
  other ∈ ps → p_userId other ≠ cur →
  (∀ q, q ∈ ps → p_userId q ≠ cur → q = other) →
  find (λ q, bool_decide (p_userId q ≠ cur)) ps = Some other.
Proof.
  intros Hin Hother Huniq.
  destruct (find _ ps) as [q|] eqn:Hfind.
  - apply find_some in Hfind as [Hq Hne].
    apply bool_decide_eq_true in Hne. apply list_elem_of_In in Hq.
    by rewrite (Huniq q Hq Hne).
  - apply list_elem_of_In in Hin.
    pose proof (find_none _ _ Hfind other Hin) as Hno. simpl in Hno.
    by apply bool_decide_eq_false in Hno.
Qed.

Lemma find_no_other_participant (ps : list ChatParticipant) (cur : Z) :
  (∀ q, q ∈ ps → p_userId q = cur) →
  find (λ q, bool_decide (p_userId q ≠ cur)) ps = None.
Proof.
  intros Hall. destruct (find _ ps) as [q|] eqn:Hfind; [|done].
  apply find_some in Hfind as [Hq Hne].
  apply bool_decide_eq_true in Hne. apply list_elem_of_In in Hq.
  by specialize (Hall q Hq).
Qed.

(** C9, as the code has it. For a group chat the display name is the chat's
    name. For a direct chat in which [other] is the one participant whose
    userId is not the current user's, at whatever position of the array, it
    is [other]'s user's username when that is a non-empty string, else
    [other]'s own username field when that is a non-empty string, else the
    placeholder; it is the placeholder as well when no participant has
    another userId than the current user's. *)
Theorem display_name_derivation (chat : Chat) (currentUserId : Z) :
  (c_type chat = group → getChatDisplayName chat currentUserId = c_name chat)
  ∧ (c_type chat = direct →
     ∀ other, other ∈ c_participants chat → p_userId other ≠ currentUserId →
       (∀ q, q ∈ c_participants chat → p_userId q ≠ currentUserId → q = other) →
       (∀ u, p_user other = Some u → u_username u ≠ EmptyString →
          getChatDisplayName chat currentUserId = u_username u)
       ∧ (p_user other = None ∨ (∃ u, p_user other = Some u ∧ u_username u = EmptyString) →
          (∀ name, p_username other = Some name → name ≠ EmptyString →
             getChatDisplayName chat currentUserId = name)
          ∧ (p_username other = None ∨ p_username other = Some EmptyString →
             getChatDisplayName chat currentUserId = unknownUser)))
  ∧ (c_type chat = direct →
     (∀ q, q ∈ c_participants chat → p_userId q = currentUserId) →
     getChatDisplayName chat currentUserId = unknownUser).
Proof.
  unfold getChatDisplayName. split; [|split].
  - by intros ->.
  - intros -> other Hin Hother Huniq.
    rewrite (find_other_participant _ _ _ Hin Hother Huniq).
    split.
    + intros u Hu Hname. rewrite Hu. simpl. by rewrite decide_False.
    + intros Huser.
      assert (∀ d, str_or (u_username <$> p_user other) d = d) as Hskip.
      { intros d. destruct Huser as [->|(u & -> & Hu)]; [done|].
        simpl. by rewrite Hu. }
      rewrite Hskip. split.
      * intros name -> Hname. simpl. by rewrite decide_False.
      * by intros [->| ->].
  - intros -> Hall. by rewrite find_no_other_participant.
Qed.

Lemma display_name_derivation_witness :
  getChatDisplayName (direct_chat [alice_participant; bob_participant]) 1 = "bob"
  ∧ getChatDisplayName (direct_chat [bob_participant; alice_participant]) 1 = "bob".
Proof.
  split.
  - refine (proj1 (proj1 (proj2 (display_name_derivation
              (direct_chat [alice_participant; bob_participant]) 1))
              _ bob_participant _ _ _) bob _ _).
    + reflexivity.
    + apply list_elem_of_further, list_elem_of_here.
    + simpl. lia.
    + intros q Hq Hne. apply elem_of_cons in Hq as [->|Hq].
      * simpl in Hne. lia.
      * by apply list_elem_of_singleton in Hq.
    + reflexivity.
    + discriminate.
  - refine (proj1 (proj1 (proj2 (display_name_derivation
              (direct_chat [bob_participant; alice_participant]) 1))
              _ bob_participant _ _ _) bob _ _).
    + reflexivity.
    + apply list_elem_of_here.
    + simpl. lia.
    + intros q Hq Hne. apply elem_of_cons in Hq as [->|Hq]; [done|].
      apply list_elem_of_singleton in Hq as ->. simpl in Hne. lia.
    + reflexivity.
    + discriminate.
Defined.

(** C9 fails as stated: in this direct chat of the current user 1 with
    participant 2, [find] does return the participant with another userId,
    and the display name is the placeholder all the same, because that
    participant carries no username. *)
Lemma display_name_placeholder_counterexample :
  c_type (direct_chat [alice_participant; nameless_participant]) = direct
  ∧ find (λ q, bool_decide (p_userId q ≠ 1))
         (c_participants (direct_chat [alice_participant; nameless_participant]))
    = Some nameless_participant
  ∧ p_userId nameless_participant ≠ 1
  ∧ getChatDisplayName (direct_chat [alice_participant; nameless_participant]) 1
    = "Unknown User".
Proof. split; [|split; [|split]]; try reflexivity. simpl. lia. Qed.

(** * Further properties of the store *)

(** ** Timelines only grow at their end *)

Lemma add_message_other_timeline now s payload c :
  c ≠ m_chatId (toMessage now payload) →
  timeline (chatReducer now s (ADD_MESSAGE payload)) c = timeline s c.
Proof.
  intros Hne.
  destruct (messageExists (timeline s (m_chatId (toMessage now payload)))
                          (toMessage now payload)) eqn:Hex.
  - by rewrite add_message_duplicate.
  - rewrite add_message_fresh by done. by apply timeline_insert_ne.
Qed.

(** X1. [ADD_MESSAGE] never removes, rewrites or reorders a stored message:
    in every chat the timeline before is a prefix of the timeline after, it
    grows by at most one message, and [messageUpdateTrigger] goes up by
    exactly the number of messages added to the payload's chat. *)
Theorem add_message_append_only (now : Z) (s : ChatState) (payload : AddPayload)
    (c : Z) :
  timeline s c `prefix_of` timeline (chatReducer now s (ADD_MESSAGE payload)) c
  ∧ (length (timeline (chatReducer now s (ADD_MESSAGE payload)) c)
     ≤ S (length (timeline s c)))%nat
  ∧ messageUpdateTrigger (chatReducer now s (ADD_MESSAGE payload))
    = messageUpdateTrigger s
      + (Z.of_nat (length (timeline (chatReducer now s (ADD_MESSAGE payload))
                              (m_chatId (toMessage now payload))))
         - Z.of_nat (length (timeline s (m_chatId (toMessage now payload))))).
Proof.
  destruct (messageExists (timeline s (m_chatId (toMessage now payload)))
                          (toMessage now payload)) eqn:Hex.
  - rewrite add_message_duplicate by done.
    split; [done|]. split; lia.
  - split; [|split].
    + destruct (decide (c = m_chatId (toMessage now payload))) as [->|Hne].
      * rewrite add_message_fresh_timeline by done. by apply prefix_app_r.
      * by rewrite add_message_other_timeline.
    + destruct (decide (c = m_chatId (toMessage now payload))) as [->|Hne].
      * rewrite add_message_fresh_timeline by done.
        rewrite length_app. simpl. lia.
      * rewrite add_message_other_timeline by done. lia.
    + rewrite add_message_fresh_timeline by done.
      rewrite length_app, add_message_fresh by done. simpl. lia.
Qed.

(** ** Positive ids stay unique under [ADD_MESSAGE] *)

Lemma positiveIds_app l1 l2 : positiveIds (l1 ++ l2) = positiveIds l1 ++ positiveIds l2.
Proof. unfold positiveIds. by rewrite fmap_app, filter_app. Qed.

Lemma elem_of_positiveIds n l :
  n ∈ positiveIds l ↔ n > 0 ∧ ∃ msg, msg ∈ l ∧ m_id msg = n.
Proof.
  unfold positiveIds. rewrite list_elem_of_filter, list_elem_of_fmap.
  split.
  - intros [Hpos (msg & -> & Hin)]. eauto.
  - intros [Hpos (msg & Hin & <-)]. eauto.
Qed.

(** X2. If no two messages of a chat's timeline share a positive id, the
    same holds after [ADD_MESSAGE], whatever the payload: a message whose
    positive id is already stored is never appended. *)
Theorem add_message_keeps_ids_unique (now : Z) (s : ChatState)
    (payload : AddPayload) (c : Z) :
  NoDup (positiveIds (timeline s c)) →
  NoDup (positiveIds (timeline (chatReducer now s (ADD_MESSAGE payload)) c)).
Proof.
  intros Hnodup.
  destruct (messageExists (timeline s (m_chatId (toMessage now payload)))
                          (toMessage now payload)) eqn:Hex.
  { by rewrite add_message_duplicate. }
  destruct (decide (c = m_chatId (toMessage now payload))) as [->|Hne].
  2:{ by rewrite add_message_other_timeline. }
  rewrite add_message_fresh_timeline by done.
  rewrite positiveIds_app. apply NoDup_app. split; [done|]. split.
  - intros n Hin Hnew.
    apply elem_of_positiveIds in Hin as [Hpos (msg & Hmsg & Hid)].
    apply elem_of_positiveIds in Hnew as [_ (m & Hm & Hidm)].
    apply list_elem_of_singleton in Hm as ->.
    pose proof (proj1 (messageExists_false _ _) Hex msg Hmsg) as Hsame.
    rewrite sameMessage_by_id in Hsame by lia.
    apply bool_decide_eq_false in Hsame. congruence.
  - unfold positiveIds. simpl. rewrite filter_cons.
    case_decide; [apply NoDup_singleton | apply NoDup_nil_2].
Qed.

Lemma add_message_keeps_ids_unique_witness :
  NoDup (positiveIds (timeline
           (chatReducer 0 (store_with 7 [stored_555])
              (ADD_MESSAGE (Full incoming_555))) 7)).
Proof.
  apply (add_message_keeps_ids_unique 0 (store_with 7 [stored_555])
           (Full incoming_555) 7).
  vm_compute. apply NoDup_singleton.
Defined.

(** ** Online presence *)

Lemma find_userId_None (l : list OnlineUser) (userId : Z) :
  find (λ u, bool_decide (o_userId u = userId)) l = None
  ↔ userId ∉ (o_userId <$> l).
Proof.
  split.
  - intros Hfind Hin. apply list_elem_of_fmap in Hin as (u & -> & Hu).
    apply list_elem_of_In in Hu.
    pose proof (find_none _ _ Hfind u Hu) as Hno. simpl in Hno.
    by apply bool_decide_eq_false in Hno.
  - intros Hnot. destruct (find _ l) as [u|] eqn:Hfind; [|done].
    apply find_some in Hfind as [Hu Heq]. apply bool_decide_eq_true in Heq.
    exfalso. apply Hnot. apply list_elem_of_fmap. exists u.
    split; [done|]. by apply list_elem_of_In.
Qed.

Lemma filter_userId_fresh (l : list OnlineUser) (userId : Z) :
  userId ∉ (o_userId <$> l) → filter (λ u, o_userId u ≠ userId) l = l.
Proof.
  induction l as [|u l IH]; [done|]. intros Hnot.
  rewrite fmap_cons, not_elem_of_cons in Hnot. destruct Hnot as [Hu Hl].
  rewrite filter_cons, decide_True by done. by rewrite IH.
Qed.

Lemma find_app_None {A} (f : A → bool) (l k : list A) :
  find f l = None → find f (l ++ k) = find f k.
Proof.
  induction l as [|x l IH]; [done|]. simpl.
  destruct (f x); [done|]. exact IH.
Qed.

(** X3. Every action but [SET_ONLINE_USERS] keeps the online list free of
    two entries for the same userId. *)
Theorem online_users_stay_unique (now : Z) (s : ChatState) (action : ChatAction) :
  (∀ l, action ≠ SET_ONLINE_USERS l) →
  NoDup (o_userId <$> onlineUsers s) →
  NoDup (o_userId <$> onlineUsers (chatReducer now s action)).
Proof.
  intros Hnot Hnodup. destruct action; simpl; try done.
  - destruct (messageExists _ _); done.
  - by specialize (Hnot payload).
  - destruct (find _ (onlineUsers s)) eqn:Hfind; [done|]. simpl.
    apply find_userId_None in Hfind.
    rewrite fmap_app. apply NoDup_app. split; [done|]. split.
    + intros n Hin Hnew. simpl in Hnew.
      apply list_elem_of_singleton in Hnew. by subst n.
    + apply NoDup_singleton.
  - eapply sublist_NoDup; [exact Hnodup|].
    apply fmap_sublist, sublist_filter.
Qed.

Lemma online_users_stay_unique_witness :
  NoDup (o_userId <$> onlineUsers
           (chatReducer 0 (chatReducer 0 initialState
                             (USER_ONLINE (mkOnlineUser 2 "bob")))
              (USER_ONLINE (mkOnlineUser 2 "bobby")))).
Proof.
  apply (online_users_stay_unique 0
           (chatReducer 0 initialState (USER_ONLINE (mkOnlineUser 2 "bob")))
           (USER_ONLINE (mkOnlineUser 2 "bobby"))).
  - discriminate.
  - vm_compute. apply NoDup_singleton.
Defined.

(** X4. Presence events: a second online event for a user already listed
    changes nothing (the first entry and its username stay); after an
    offline event no entry with that userId is left; and for a user that was
    not listed, online followed by offline gives back the online list as it
    was. *)
Theorem presence_events (now1 now2 : Z) (p : Provider) (userId : Z)
    (username username' : string) :
  onUserOnline now2 (onUserOnline now1 p userId username) userId username'
  = onUserOnline now1 p userId username
  ∧ (userId ∉ (o_userId <$> onlineUsers (state (onUserOffline now1 p userId username))))
  ∧ (userId ∉ (o_userId <$> onlineUsers (state p)) →
     onlineUsers (state (onUserOffline now2 (onUserOnline now1 p userId username)
                           userId username'))
     = onlineUsers (state p)).
Proof.
  split; [|split].
  - unfold onUserOnline, dispatch. simpl. f_equal.
    destruct (find _ (onlineUsers (state p))) as [u|] eqn:Hfind.
    + simpl. by rewrite Hfind.
    + simpl. rewrite find_app_None by done. simpl.
      by rewrite bool_decide_eq_true_2.
  - simpl. intros Hin. apply list_elem_of_fmap in Hin as (u & Hu & Hin).
    apply list_elem_of_filter in Hin as [Hne _]. done.
  - intros Hfresh. simpl.
    rewrite (proj2 (find_userId_None _ _) Hfresh). simpl.
    rewrite filter_app, filter_userId_fresh by done.
    rewrite filter_cons, decide_False by (simpl; tauto).
    by rewrite app_nil_r.
Qed.

Lemma presence_events_witness :
  onlineUsers (state (onUserOffline 2 (onUserOnline 1 (fresh_provider alice) 2 "bob")
                        2 "bob"))
  = onlineUsers (state (fresh_provider alice)).
Proof.
  refine (proj2 (proj2 (presence_events 1 2 (fresh_provider alice) 2 "bob" "bob")) _).
  vm_compute. apply not_elem_of_nil.
Defined.

(** ** Unread counters over a run *)

Lemma unread_nonneg s c : countersNonNegative s → 0 ≤ unread s c.
Proof.
  intros Hinv. unfold unread.
  destruct (unreadCounts s !! c) as [n|] eqn:Hc; simpl; [by eapply Hinv | lia].
Qed.

Lemma chatReducer_countersNonNegative now s action :
  countersNonNegative s → countersNonNegative (chatReducer now s action).
Proof.
  intros Hinv. destruct action; simpl; try done.
  - destruct (messageExists _ _); done.
  - destruct (find _ _); done.
  - intros c n. simpl. rewrite lookup_insert. case_decide.
    + intros [= <-]. pose proof (unread_nonneg s chatId Hinv). lia.
    + apply Hinv.
  - intros c n. simpl. rewrite lookup_insert. case_decide.
    + intros [= <-]. lia.
    + apply Hinv.
Qed.

Lemma dispatchAll_countersNonNegative actions s :
  countersNonNegative s → countersNonNegative (dispatchAll actions s).
Proof.
  revert s. induction actions as [|[now a] actions IH]; intros s Hinv; [done|].
  apply IH. by apply chatReducer_countersNonNegative.
Qed.

(** X5. Whatever actions are dispatched from the initial state, at whatever
    times, no unread counter is ever negative, and the badge expression of
    the chat list never evaluates to [false]: it is [undefined], the number
    0, or the badge element. *)
Theorem unread_never_negative (actions : list (Z * ChatAction)) (c : Z) :
  0 ≤ unread (dispatchAll actions initialState) c
  ∧ unreadBadge (dispatchAll actions initialState) c ≠ BadgeFalse.
Proof.
  assert (countersNonNegative (dispatchAll actions initialState)) as Hinv.
  { apply dispatchAll_countersNonNegative. intros c' n. simpl.
    by rewrite lookup_empty. }
  split; [by apply unread_nonneg|].
  unfold unreadBadge.
  destruct (unreadCounts _ !! c) as [n|] eqn:Hc; [|done].
  pose proof (Hinv c n Hc). case_decide; [done|].
  rewrite bool_decide_eq_true_2 by lia. done.
Qed.

(** X6. [setActiveChat(chat)] selects the chat, sets its unread counter to
    0 (so the badge expression is the number 0, not [undefined] or [false]),
    leaves the other counters, the chat list and every timeline as they
    were, does not touch [activeChatRef], and starts [loadMessages] and then
    [joinChat] for the chat; [setActiveChat(null)] only clears the
    selection and starts nothing. *)
Theorem setActiveChat_effect (now : Z) (chat : Chat) (p : Provider) :
  (activeChat (state (setActiveChat now (Some chat) p).1) = Some chat
   ∧ unread (state (setActiveChat now (Some chat) p).1) (c_id chat) = 0
   ∧ unreadBadge (state (setActiveChat now (Some chat) p).1) (c_id chat)
     = BadgeNumber 0
   ∧ (∀ c, c ≠ c_id chat →
        unreadCounts (state (setActiveChat now (Some chat) p).1) !! c
        = unreadCounts (state p) !! c)
   ∧ chats (state (setActiveChat now (Some chat) p).1) = chats (state p)
   ∧ messages (state (setActiveChat now (Some chat) p).1) = messages (state p)
   ∧ activeChatRef (setActiveChat now (Some chat) p).1 = activeChatRef p
   ∧ (setActiveChat now (Some chat) p).2
     = [LoadMessages (c_id chat); JoinChat (c_id chat)])
  ∧ (activeChat (state (setActiveChat now None p).1) = None
     ∧ unreadCounts (state (setActiveChat now None p).1) = unreadCounts (state p)
     ∧ messages (state (setActiveChat now None p).1) = messages (state p)
     ∧ (setActiveChat now None p).2 = []).
Proof.
  split; [|done]. simpl.
  split; [done|]. split.
  { unfold unread. simpl. by rewrite lookup_insert_eq. }
  split.
  { unfold unreadBadge. simpl. rewrite lookup_insert_eq. by rewrite decide_True. }
  split; [|done].
  intros c Hc. by rewrite lookup_insert_ne.
Qed.

Lemma setActiveChat_effect_witness :
  unreadCounts (state (setActiveChat 0 (Some chat7)
     (onReceiveMessage 0 (fresh_provider alice) bob_event_chat9).1).1) !! 9
  = unreadCounts (state (onReceiveMessage 0 (fresh_provider alice) bob_event_chat9).1) !! 9.
Proof.
  refine (proj1 (proj2 (proj2 (proj2 (proj1 (setActiveChat_effect 0 chat7
            (onReceiveMessage 0 (fresh_provider alice) bob_event_chat9).1))))) 9 _).
  simpl. lia.
Defined.

(** X7. An event that the deduplication test drops is still counted: for a
    chat that is not the active one and a sender that is not the local user,
    the handler leaves every timeline as it was, and all the same adds one
    to the chat's unread counter and calls the registered notification
    callback. *)
Theorem duplicate_still_counts (now : Z) (p : Provider) (d : MessageData)
    (callback : nat) :
  messageExists (timeline (state p) (d_chatId d)) (toMessage now (Light d)) = true →
  isActiveChat p (d_chatId d) = false →
  d_senderId d ≠ u_id (user p) →
  newMessageCallbackRef p = Some callback →
  messages (state (onReceiveMessage now p d).1) = messages (state p)
  ∧ unread (state (onReceiveMessage now p d).1) (d_chatId d)
    = unread (state p) (d_chatId d) + 1
  ∧ (onReceiveMessage now p d).2
    = [Notify callback (d_chatId d)
         (str_or (d_senderUsername d) (placeholderName (d_senderId d)))
         (d_content d)].
Proof.
  intros Hdup Hact Hsender Hcb.
  assert (chatReducer now (state p) (ADD_MESSAGE (Light d)) = state p) as Hred
    by (by apply add_message_duplicate).
  split; [by rewrite onReceiveMessage_messages, Hred|].
  unfold onReceiveMessage. rewrite Hact, Hcb.
  rewrite (bool_decide_eq_false_2 _ Hsender). cbn [negb andb fst snd].
  rewrite !dispatch_state, Hred. split; [|done].
  apply increment_unread_eq.
Qed.

Lemma duplicate_still_counts_witness :
  unread (state (onReceiveMessage 6
            (onReceiveMessage 5 (setOnNewMessage (Some 1%nat) (fresh_provider alice))
               bob_event_42).1 bob_event_42).1) 7
  = unread (state (onReceiveMessage 5
              (setOnNewMessage (Some 1%nat) (fresh_provider alice)) bob_event_42).1) 7 + 1.
Proof.
  refine (proj1 (proj2 (duplicate_still_counts 6
            (onReceiveMessage 5 (setOnNewMessage (Some 1%nat) (fresh_provider alice))
               bob_event_42).1 bob_event_42 1%nat _ _ _ _))).
  - reflexivity.
  - reflexivity.
  - simpl. lia.
  - reflexivity.
Defined.

(** ** Updates, and the two orders of confirmation and echo *)

Lemma rewriteWhere_all_miss messageId u (l : list Message) :
  (∀ msg, msg ∈ l → m_id msg ≠ messageId) →
  map (rewriteWhere messageId u) l = l.
Proof.
  induction l as [|msg l IH]; [done|]. intros Hall. simpl.
  rewrite rewriteWhere_miss by (apply Hall, list_elem_of_here).
  rewrite IH; [done|]. intros m Hm. apply Hall. by apply list_elem_of_further.
Qed.

(** X8. [UPDATE_MESSAGE] for an id that no message of the chat carries
    leaves every timeline as it reads (a chat without timeline gets an empty
    one); in particular the status update of a failed send marks nothing
    when the optimistic message is not in the timeline. *)
Theorem update_unknown_id_is_noop (now : Z) (s : ChatState) (c messageId : Z)
    (u : MessageUpdates) :
  (∀ msg, msg ∈ timeline s c → m_id msg ≠ messageId) →
  (∀ c', timeline (chatReducer now s (UPDATE_MESSAGE c messageId u)) c'
         = timeline s c')
  ∧ messages (chatReducer now s (UPDATE_MESSAGE c messageId u)) !! c
    = Some (timeline s c).
Proof.
  intros Hall. split.
  - intros c'. destruct (decide (c = c')) as [<-|Hne].
    + rewrite update_message_timeline. by apply rewriteWhere_all_miss.
    + by apply update_message_other_timeline.
  - simpl. rewrite lookup_insert_eq. f_equal. by apply rewriteWhere_all_miss.
Qed.

Lemma update_unknown_id_is_noop_witness :
  messages (chatReducer 0 initialState
              (UPDATE_MESSAGE 7 1700000000000
                 (mkUpdates None None None None None None (Some failed)))) !! 7
  = Some (timeline initialState 7).
Proof.
  refine (proj2 (update_unknown_id_is_noop 0 initialState 7 1700000000000
                   (mkUpdates None None None None None None (Some failed)) _)).
  intros msg Hin. vm_compute in Hin. by apply elem_of_nil in Hin.
Defined.

(** X9. The event overtakes the confirmation. If, after the optimistic
    message was appended with a positive provisional id, the realtime event
    for the saved message (its positive id differs from the provisional one)
    is handled before the gateway answers, the event is appended; when the
    answer then rewrites the optimistic message, the timeline ends with two
    messages that both carry the saved id. *)
Theorem event_before_confirmation_duplicates (now1 now2 tempId stamp : Z)
    (p p1 p2 p3 : Provider) (chatId : Z) (content : string) (d : MessageData)
    (savedMessage : Message) (n : Z) :
  messageExists (timeline (state p) chatId)
                (tempMessage p tempId stamp chatId content) = false →
  messageExists (timeline (state p) chatId) (toMessage now1 (Light d)) = false →
  d_chatId d = chatId → d_id d = NumId n → m_id savedMessage = n →
  n > 0 → tempId > 0 → n ≠ tempId →
  p1 = (sendMessage_request tempId stamp p chatId content).1 →
  p2 = (onReceiveMessage now1 p1 d).1 →
  p3 = out_provider (sendMessage_resume now2 tempId p2 chatId (inl savedMessage)) →
  length (timeline (state p3) chatId) = S (S (length (timeline (state p) chatId)))
  ∧ (∃ first second,
       timeline (state p3) chatId !! length (timeline (state p) chatId) = Some first
       ∧ timeline (state p3) chatId !! S (length (timeline (state p) chatId))
         = Some second
       ∧ m_id first = n ∧ m_id second = n
       ∧ m_content first = content ∧ second = toMessage now1 (Light d)).
Proof.
  intros Hecho Hevent Hchat Hid Hsaved Hn Htemp Hne -> -> ->.
  set (echo := tempMessage p tempId stamp chatId content) in *.
  set (event := toMessage now1 (Light d)) in *.
  assert (m_id event = n) as Hevid by (subst event; simpl; by rewrite Hid).
  assert (m_chatId event = chatId) as Hevc by (by subst event).
  pose proof (sendMessage_request_timeline tempId stamp p chatId content Hecho) as Htl1.
  fold echo in Htl1.
  assert (timeline (state (onReceiveMessage now1
            (sendMessage_request tempId stamp p chatId content).1 d).1) chatId
          = timeline (state p) chatId ++ [echo; event]) as Htl2.
  { rewrite onReceiveMessage_timeline.
    pose proof (add_message_fresh_timeline now1
                  (state (sendMessage_request tempId stamp p chatId content).1)
                  (Light d)) as Hadd.
    fold event in Hadd. rewrite Hevc, Htl1 in Hadd. rewrite Hadd.
    - by rewrite <- app_assoc.
    - rewrite messageExists_app, Hevent. simpl.
      assert (m_id echo = tempId) as Hechoid by done.
      rewrite sameMessage_by_id by lia.
      rewrite bool_decide_eq_false_2; [done|]. lia. }
  unfold sendMessage_resume. rewrite decide_True by lia.
  cbn [out_provider]. rewrite dispatch_state, update_message_timeline, Htl2.
  rewrite map_app. simpl.
  rewrite (rewriteWhere_hit tempId _ echo) by done.
  rewrite (rewriteWhere_miss tempId _ event) by lia.
  split.
  - rewrite length_app, length_map. simpl. lia.
  - eexists _, _. split; [|split].
    + rewrite lookup_app_r by (rewrite length_map; lia).
      rewrite length_map, Nat.sub_diag. reflexivity.
    + rewrite lookup_app_r by (rewrite length_map; lia).
      rewrite length_map.
      replace (S (length (timeline (state p) chatId))
               - length (timeline (state p) chatId))%nat with 1%nat by lia.
      reflexivity.
    + simpl. done.
Qed.

Lemma event_before_confirmation_duplicates_witness :
  length (timeline (state (out_provider
     (sendMessage_resume 1700000000350 1700000000000
        (onReceiveMessage 1700000000200
           (sendMessage_request 1700000000000 1700000000001
              (fresh_provider alice) 7 "hello").1 echo_event_555).1
        7 (inl saved_555)))) 7)
  = S (S (length (timeline (state (fresh_provider alice)) 7))).
Proof.
  refine (proj1 (event_before_confirmation_duplicates 1700000000200
            1700000000350 1700000000000 1700000000001 (fresh_provider alice)
            _ _ _ 7 "hello" echo_event_555 saved_555 555
            _ _ _ _ _ _ _ _ eq_refl eq_refl eq_refl)).
  - reflexivity.
  - reflexivity.
  - reflexivity.
  - reflexivity.
  - reflexivity.
  - lia.
  - lia.
  - lia.
Defined.

(** X10. The confirmation overtakes the event. If the gateway's answer has
    rewritten the optimistic message to the saved positive id before the
    realtime event with that id is handled, the event is dropped by the id
    test alone, whatever its content, sender and timestamp: every timeline
    stays as it was. *)
Theorem confirmation_before_event_absorbs (now1 now2 tempId stamp : Z)
    (p p1 p2 p3 : Provider) (chatId : Z) (content : string) (d : MessageData)
    (savedMessage : Message) (n : Z) :
  messageExists (timeline (state p) chatId)
                (tempMessage p tempId stamp chatId content) = false →
  d_chatId d = chatId → d_id d = NumId n → m_id savedMessage = n →
  n > 0 → n ≠ tempId →
  p1 = (sendMessage_request tempId stamp p chatId content).1 →
  p2 = out_provider (sendMessage_resume now1 tempId p1 chatId (inl savedMessage)) →
  p3 = (onReceiveMessage now2 p2 d).1 →
  messages (state p3) = messages (state p2)
  ∧ length (timeline (state p3) chatId) = S (length (timeline (state p) chatId)).
Proof.
  intros Hecho Hchat Hid Hsaved Hn Hne -> -> ->.
  set (echo := tempMessage p tempId stamp chatId content) in *.
  set (event := toMessage now2 (Light d)) in *.
  pose proof (sendMessage_request_timeline tempId stamp p chatId content Hecho) as Htl1.
  fold echo in Htl1.
  unfold sendMessage_resume. rewrite decide_True by lia.
  cbn [out_provider].
  match goal with |- context [dispatch now1 ?a ?q] => set (p2 := dispatch now1 a q) end.
  assert (timeline (state p2) chatId
          = map (rewriteWhere tempId
                   {| up_id := Some (m_id savedMessage); up_chatId := None;
                      up_senderId := None; up_sender := None; up_content := None;
                      up_timestamp := Some (m_timestamp savedMessage);
                      up_status := Some (m_status savedMessage) |})
                (timeline (state p) chatId ++ [echo])) as Htl2.
  { subst p2. by rewrite dispatch_state, update_message_timeline, Htl1. }
  assert (chatReducer now2 (state p2) (ADD_MESSAGE (Light d)) = state p2) as Hred.
  { apply add_message_duplicate. rewrite toMessage_chatId, Hchat, Htl2.
    rewrite map_app, messageExists_app. apply orb_true_iff. right.
    simpl. rewrite (rewriteWhere_hit tempId _ echo) by done.
    rewrite sameMessage_by_id.
    - rewrite bool_decide_eq_true_2; [done|]. simpl. by rewrite Hid.
    - simpl. lia.
    - simpl. rewrite Hid. lia. }
  assert (messages (state (onReceiveMessage now2 p2 d).1) = messages (state p2)) as Hm
    by (by rewrite onReceiveMessage_messages, Hred).
  split; [done|].
  unfold timeline at 1. rewrite Hm. fold (timeline (state p2) chatId).
  rewrite Htl2, length_map, length_app. simpl. lia.
Qed.

Lemma confirmation_before_event_absorbs_witness :
  length (timeline (state (onReceiveMessage 1700000000400
     (out_provider
        (sendMessage_resume 1700000000350 1700000000000
           (sendMessage_request 1700000000000 1700000000001
              (fresh_provider alice) 7 "hello").1 7 (inl saved_555)))
     echo_event_555).1) 7)
  = S (length (timeline (state (fresh_provider alice)) 7)).
Proof.
  refine (proj2 (confirmation_before_event_absorbs 1700000000350
            1700000000400 1700000000000 1700000000001 (fresh_provider alice)
            _ _ _ 7 "hello" echo_event_555 saved_555 555
            _ _ _ _ _ _ eq_refl eq_refl eq_refl)).
  - reflexivity.
  - reflexivity.
  - reflexivity.
  - reflexivity.
  - lia.
  - lia.
Defined.

(** ** The last message of a chat *)

Lemma getLastMessage_last s c : getLastMessage s c = last (timeline s c).
Proof.
  unfold getLastMessage, timeline.
  destruct (messages s !! c) as [l|]; [|done]. simpl.
  case_decide as Hlen; [|done]. by destruct l.
Qed.

(** X11. The chat list's [getLastMessage] is the last element of the
    timeline as the store reads it, [null] exactly for a missing or empty
    timeline; after [ADD_MESSAGE] it is the new message when that was
    appended and the previous last message when it was dropped. *)
Theorem last_message_after_add (now : Z) (s : ChatState) (payload : AddPayload) :
  (∀ c, getLastMessage s c = None ↔ timeline s c = [])
  ∧ getLastMessage (chatReducer now s (ADD_MESSAGE payload))
                   (m_chatId (toMessage now payload))
    = if messageExists (timeline s (m_chatId (toMessage now payload)))
                       (toMessage now payload)
      then getLastMessage s (m_chatId (toMessage now payload))
      else Some (toMessage now payload).
Proof.
  split.
  - intros c. rewrite getLastMessage_last. apply last_None.
  - destruct (messageExists _ _) eqn:Hex.
    + by rewrite add_message_duplicate.
    + rewrite getLastMessage_last, add_message_fresh_timeline by done.
      apply last_snoc.
Qed.

Lemma last_message_after_add_witness :
  timeline (store_with 7 [stored_local]) 9 = [].
Proof.
  refine (proj1 (proj1 (last_message_after_add 0 (store_with 7 [stored_local])
                          (Full stored_555)) 9) _).
  reflexivity.
Defined.

(** ** Every stored message has a sender *)

Lemma toMessage_has_sender now payload : is_Some (m_sender (toMessage now payload)).
Proof.
  unfold toMessage. destruct payload as [m|d]; simpl; [|eauto].
  destruct (m_sender m) eqn:Hs; simpl; [rewrite Hs|]; eauto.
Qed.

(** X12. If every message of a timeline has a sender, this is still so
    after a message-received event, after the optimistic append of
    [sendMessage] and after its confirmation or failure: what the reducer
    appends always carries a sender (a missing one is synthesised from the
    sender id) and the updates of [sendMessage] do not touch it. *)
Theorem stored_messages_have_sender (now tempId stamp : Z) (p : Provider)
    (c chatId : Z) (content : string) (d : MessageData)
    (result : Message + JsError) :
  (∀ msg, msg ∈ timeline (state p) c → is_Some (m_sender msg)) →
  (∀ msg, msg ∈ timeline (state (onReceiveMessage now p d).1) c →
          is_Some (m_sender msg))
  ∧ (∀ msg, msg ∈ timeline (state (sendMessage_request tempId stamp p chatId content).1) c →
          is_Some (m_sender msg))
  ∧ (∀ msg, msg ∈ timeline (state (out_provider
                (sendMessage_resume now tempId p chatId result))) c →
          is_Some (m_sender msg)).
Proof.
  intros Hall.
  assert (∀ t payload msg,
            msg ∈ timeline (chatReducer t (state p) (ADD_MESSAGE payload)) c →
            is_Some (m_sender msg)) as Hadd.
  { intros t payload msg.
    destruct (messageExists (timeline (state p) (m_chatId (toMessage t payload)))
                            (toMessage t payload)) eqn:Hex.
    - rewrite add_message_duplicate by done. apply Hall.
    - destruct (decide (c = m_chatId (toMessage t payload))) as [->|Hne].
      + rewrite add_message_fresh_timeline by done.
        rewrite elem_of_app, list_elem_of_singleton.
        intros [Hin| ->]; [by apply Hall | apply toMessage_has_sender].
      + rewrite add_message_other_timeline by done. apply Hall. }
  assert (∀ u msg, up_sender u = None →
            msg ∈ timeline (chatReducer now (state p) (UPDATE_MESSAGE chatId tempId u)) c →
            is_Some (m_sender msg)) as Hupd.
  { intros u msg Hu. destruct (decide (chatId = c)) as [<-|Hne].
    - rewrite update_message_timeline.
      intros Hin. apply list_elem_of_fmap in Hin as (msg0 & -> & Hin0).
      unfold rewriteWhere. case_decide; [|by apply Hall].
      unfold applyUpdates. simpl. rewrite Hu. simpl. by apply Hall.
    - rewrite update_message_other_timeline by done. apply Hall. }
  split; [|split].
  - intros msg. rewrite onReceiveMessage_timeline. apply Hadd.
  - intros msg. apply (Hadd stamp (Full (tempMessage p tempId stamp chatId content))).
  - intros msg. unfold sendMessage_resume. destruct result as [saved|error].
    + case_decide; cbn [out_provider]; [|apply Hall].
      rewrite dispatch_state. by apply Hupd.
    + cbn [out_provider]. rewrite dispatch_state. by apply Hupd.
Qed.

Lemma stored_messages_have_sender_witness :
  is_Some (m_sender (toMessage 5 (Light bob_event_chat9))).
Proof.
  refine (proj1 (stored_messages_have_sender 5 0 0 (fresh_provider alice) 9 9
                   "hello" bob_event_chat9 (inr (mkError "x")) _)
            (toMessage 5 (Light bob_event_chat9)) _).
  - intros msg Hin. vm_compute in Hin. by apply elem_of_nil in Hin.
  - vm_compute. apply list_elem_of_here.
Defined.

(** ** Typing events *)

Lemma onUserTyping_typingUsers now captured p userId username isTyping c :
  c ≠ 0 →
  typingUsers (state (onUserTyping now captured p userId username isTyping (Some c)))
  = <[c := if isTyping then
             match find (λ u, bool_decide (t_userId u = userId))
                        (default [] (typingUsers captured !! c)) with
             | None => default [] (typingUsers captured !! c)
                       ++ [mkTypingUser userId username isTyping]
             | Some _ => default [] (typingUsers captured !! c)
             end
           else filter (λ u, t_userId u ≠ userId)
                       (default [] (typingUsers captured !! c))]>
      (typingUsers (state p)).
Proof. intros Hc. unfold onUserTyping. rewrite decide_False by done. reflexivity. Qed.

Lemma find_typing_None (l : list TypingUser) (userId : Z) :
  find (λ u, bool_decide (t_userId u = userId)) l = None
  ↔ userId ∉ (t_userId <$> l).
Proof.
  split.
  - intros Hfind Hin. apply list_elem_of_fmap in Hin as (u & -> & Hu).
    apply list_elem_of_In in Hu.
    pose proof (find_none _ _ Hfind u Hu) as Hno. simpl in Hno.
    by apply bool_decide_eq_false in Hno.
  - intros Hnot. destruct (find _ l) as [u|] eqn:Hfind; [|done].
    apply find_some in Hfind as [Hu Heq]. apply bool_decide_eq_true in Heq.
    exfalso. apply Hnot. apply list_elem_of_fmap. exists u.
    split; [done|]. by apply list_elem_of_In.
Qed.

(** X13. A typing event with a non-zero chat id writes that chat's typing
    list and no other. The list is built from the store the handler closed
    over: with no two entries of one user there, there are none in the list
    written; "typing" for a user listed there writes that list back
    unchanged; "stopped typing" writes it without any entry of the user. *)
Theorem typing_list_written (now : Z) (captured : ChatState) (p : Provider)
    (userId : Z) (username : string) (c : Z) :
  c ≠ 0 →
  NoDup (t_userId <$> default [] (typingUsers captured !! c)) →
  (∀ isTyping c', c' ≠ c →
     typingUsers (state (onUserTyping now captured p userId username isTyping (Some c))) !! c'
     = typingUsers (state p) !! c')
  ∧ (∀ isTyping, ∃ written,
       typingUsers (state (onUserTyping now captured p userId username isTyping (Some c))) !! c
       = Some written
       ∧ NoDup (t_userId <$> written)
       ∧ (userId ∈ (t_userId <$> written) ↔ isTyping = true))
  ∧ (userId ∈ (t_userId <$> default [] (typingUsers captured !! c)) →
     typingUsers (state (onUserTyping now captured p userId username true (Some c))) !! c
     = Some (default [] (typingUsers captured !! c))).
Proof.
  intros Hc Hnodup. split; [|split].
  - intros isTyping c' Hc'. rewrite onUserTyping_typingUsers by done.
    by rewrite lookup_insert_ne.
  - intros isTyping. rewrite onUserTyping_typingUsers by done.
    rewrite lookup_insert_eq. eexists. split; [done|].
    destruct isTyping.
    + destruct (find _ _) as [u|] eqn:Hfind.
      * split; [done|]. split; [done|]. intros _.
        apply find_some in Hfind as [Hu Heq]. apply bool_decide_eq_true in Heq.
        apply list_elem_of_fmap. exists u. split; [done|]. by apply list_elem_of_In.
      * apply find_typing_None in Hfind. split.
        -- rewrite fmap_app. apply NoDup_app. split; [done|]. split.
           ++ intros n Hin Hnew. simpl in Hnew.
              apply list_elem_of_singleton in Hnew. by subst n.
           ++ apply NoDup_singleton.
        -- split; [done|]. intros _. rewrite fmap_app. apply elem_of_app.
           right. simpl. apply list_elem_of_here.
    + split.
      * eapply sublist_NoDup; [exact Hnodup|]. apply fmap_sublist, sublist_filter.
      * split; [|done]. intros Hin.
        apply list_elem_of_fmap in Hin as (u & Hu & Hin).
        apply list_elem_of_filter in Hin as [Hne _]. done.
  - intros Hin. rewrite onUserTyping_typingUsers by done.
    rewrite lookup_insert_eq.
    destruct (find _ _) as [u|] eqn:Hfind; [done|].
    by apply find_typing_None in Hfind.
Qed.

Lemma typing_list_written_witness :
  typingUsers (state (onUserTyping 0 (store_typing 7 [mkTypingUser 2 "bob" true])
                        (fresh_provider alice) 2 "bob" true (Some 7))) !! 7
  = Some (default [] (typingUsers (store_typing 7 [mkTypingUser 2 "bob" true]) !! 7)).
Proof.
  refine (proj2 (proj2 (typing_list_written 0
            (store_typing 7 [mkTypingUser 2 "bob" true])
            (fresh_provider alice) 2 "bob" 7 _ _)) _).
  - lia.
  - vm_compute. apply NoDup_singleton.
  - vm_compute. apply list_elem_of_here.
Defined.

(** X14. Typing events overwrite one another. Two typing events for the same
    chat, handled one after the other by the same installed handler, leave
    the typing lists exactly as the second one alone would: what the first
    one wrote is lost, because the handler reads the list from the store it
    closed over, not from the current one. So when neither of two different
    users is listed in that store, after "typing" from the first and then
    from the second only the second one is shown. *)
Theorem typing_events_overwrite (now1 now2 : Z) (captured : ChatState)
    (p : Provider) (userA userB : Z) (nameA nameB : string)
    (typingA typingB : bool) (c : Z) :
  c ≠ 0 →
  typingUsers (state (onUserTyping now2 captured
     (onUserTyping now1 captured p userA nameA typingA (Some c))
     userB nameB typingB (Some c)))
  = typingUsers (state (onUserTyping now2 captured p userB nameB typingB (Some c)))
  ∧ (userA ≠ userB →
     userA ∉ (t_userId <$> default [] (typingUsers captured !! c)) →
     userA ∉ (t_userId <$> default []
        (typingUsers (state (onUserTyping now2 captured
           (onUserTyping now1 captured p userA nameA true (Some c))
           userB nameB true (Some c))) !! c))).
Proof.
  intros Hc. split.
  - rewrite !onUserTyping_typingUsers by done. apply insert_insert_eq.
  - intros Hne HA. rewrite onUserTyping_typingUsers by done.
    rewrite lookup_insert_eq. simpl.
    destruct (find _ _); [done|].
    rewrite fmap_app. intros Hin. apply elem_of_app in Hin as [Hin|Hin]; [done|].
    simpl in Hin. apply list_elem_of_singleton in Hin. done.
Qed.

Lemma typing_events_overwrite_witness :
  typingUsers (state (onUserTyping 2 initialState
     (onUserTyping 1 initialState (fresh_provider alice) 2 "bob" true (Some 7))
     3 "carol" true (Some 7))) !! 7
  = Some [mkTypingUser 3 "carol" true].
Proof.
  rewrite (proj1 (typing_events_overwrite 1 2 initialState (fresh_provider alice)
                    2 3 "bob" "carol" true true 7 ltac:(lia))).
  reflexivity.
Defined.

(** X15. Typing events never reach the store through the realtime service:
    it calls the registered handler without a chat id, and the handler of
    [ChatProvider] then returns at its guard. Whatever the user, the name
    and the flag, the provider is unchanged. *)
Theorem service_typing_events_are_dropped (now : Z) (captured : ChatState)
    (p : Provider) (userId : Z) (username : string) (isTyping : bool) :
  connectionOnUserTyping (Some (providerTypingHandler now captured))
                         userId username isTyping p = p
  ∧ connectionOnUserTyping (St := Provider) None userId username isTyping p = p.
Proof. split; reflexivity. Qed.

(** ** Normalised chats *)

Lemma unknownUser_nonempty : unknownUser ≠ EmptyString.
Proof. discriminate. Qed.

Lemma str_or_nonempty s d : d ≠ EmptyString → str_or s d ≠ EmptyString.
Proof.
  intros Hd. unfold str_or. destruct s as [v|]; [|done]. by case_decide.
Qed.

Lemma str_or_Some_nonempty v d : v ≠ EmptyString → str_or (Some v) d = v.
Proof. intros Hv. unfold str_or. by rewrite decide_False. Qed.

(** X16. [normalizeChat] keeps the participants in number, order and
    userId, and completes each of them: a user given by the API is kept, a
    missing one is synthesised with the participant's userId and a non-empty
    username, and the participant's own username is always a non-empty
    string. A chat without participants list gets the empty list, one
    without type is [direct]. *)
Theorem normalized_participants_are_complete (clock : nat → bool → string)
    (rawChat : RawChat) :
  p_userId <$> c_participants (normalizeChat clock rawChat)
  = rp_userId <$> default [] (rc_participants rawChat)
  ∧ (∀ (i : nat) (participant : RawParticipant),
       default [] (rc_participants rawChat) !! i = Some participant →
       ∃ q, c_participants (normalizeChat clock rawChat) !! i = Some q
            ∧ (∀ u, rp_user participant = Some u → p_user q = Some u)
            ∧ (rp_user participant = None →
               ∃ u, p_user q = Some u ∧ u_id u = rp_userId participant
                    ∧ u_username u ≠ EmptyString)
            ∧ (∃ name, p_username q = Some name ∧ name ≠ EmptyString))
  ∧ (rc_participants rawChat = None → c_participants (normalizeChat clock rawChat) = [])
  ∧ (rc_type rawChat = None → c_type (normalizeChat clock rawChat) = direct).
Proof.
  unfold normalizeChat. simpl.
  split; [|split; [|split]].
  - destruct (rc_participants rawChat) as [ps|]; [|done]. simpl.
    rewrite fmap_imap. simpl. apply imap_const.
  - intros i participant Hi.
    destruct (rc_participants rawChat) as [ps|]; [|done]. simpl in Hi.
    rewrite list_lookup_imap, Hi. simpl. eexists. split; [done|].
    simpl. split; [|split].
    + by intros u ->.
    + intros ->. eexists. split; [done|]. simpl. split; [done|].
      apply str_or_nonempty, unknownUser_nonempty.
    + eexists. split; [done|].
      apply str_or_nonempty, str_or_nonempty, unknownUser_nonempty.
  - by intros ->.
  - by intros ->.
Qed.

Lemma normalized_participants_are_complete_witness :
  ∃ q, c_participants (normalizeChat iso_clock raw_chat7) !! 1%nat = Some q
       ∧ (∃ name, p_username q = Some name ∧ name ≠ EmptyString).
Proof.
  destruct (proj1 (proj2 (normalized_participants_are_complete iso_clock raw_chat7))
              1%nat raw_bob_by_name eq_refl) as (q & Hq & _ & _ & Hname).
  exists q. split; [exact Hq | exact Hname].
Defined.

Lemma num_or_idem n d : num_or (Some (num_or n d)) d = num_or n d.
Proof.
  unfold num_or. destruct n as [v|].
  - destruct (decide (v = 0)) as [->|Hv].
    + by destruct (decide (d = 0)).
    + by rewrite decide_False.
  - by destruct (decide (d = 0)).
Qed.

Lemma normalizeParticipant_idem clock clock' rawChatId participant :
  clock false ≠ EmptyString →
  normalizeParticipant clock' rawChatId
    (asRawParticipant (normalizeParticipant clock rawChatId participant))
  = normalizeParticipant clock rawChatId participant.
Proof.
  intros Hclock. unfold normalizeParticipant, asRawParticipant.
  cbn [rp_chatId rp_userId rp_joinedAt rp_user rp_username
       p_chatId p_userId p_joinedAt p_user p_username fmap option_fmap option_map].
  rewrite num_or_idem.
  rewrite (str_or_Some_nonempty (str_or (rp_joinedAt participant) (clock false)))
    by (by apply str_or_nonempty).
  rewrite (str_or_Some_nonempty
             (str_or (rp_username participant)
                (str_or (u_username <$> rp_user participant) unknownUser)))
    by (apply str_or_nonempty, str_or_nonempty, unknownUser_nonempty).
  reflexivity.
Qed.

(** X17. [normalizeChat] is idempotent: normalising a normalised chat again,
    at any later time, returns it unchanged, provided the clock readings of
    the first pass were non-empty strings (as ISO strings are). *)
Theorem normalizeChat_idempotent (clock clock' : nat → bool → string)
    (rawChat : RawChat) :
  (∀ i, clock i false ≠ EmptyString) →
  normalizeChat clock' (asRawChat (normalizeChat clock rawChat))
  = normalizeChat clock rawChat.
Proof.
  intros Hclock. unfold normalizeChat, asRawChat.
  cbn [rc_id rc_name rc_type rc_createdAt rc_participants rc_messages
       c_id c_name c_type c_createdAt c_participants c_messages default].
  f_equal.
  destruct (rc_participants rawChat) as [ps|]; [|done].
  rewrite imap_fmap.
  apply list_eq. intros i. rewrite !list_lookup_imap.
  destruct (ps !! i) as [participant|] eqn:Hi; [|done].
  cbn [fmap option_fmap option_map compose]. f_equal.
  by apply normalizeParticipant_idem.
Qed.

Lemma normalizeChat_idempotent_witness :
  normalizeChat (λ _ _, "2025-01-01T00:00:00.000Z")
    (asRawChat (normalizeChat iso_clock raw_chat7))
  = normalizeChat iso_clock raw_chat7.
Proof.
  apply (normalizeChat_idempotent iso_clock _ raw_chat7).
  intros i. discriminate.
Defined.

(** ** Display names, again *)

(** X18. The display name of a direct chat is never the empty string,
    whatever its participants: the chat header can always show an
    initial. *)
Theorem direct_display_name_nonempty (chat : Chat) (currentUserId : Z) :
  c_type chat = direct → getChatDisplayName chat currentUserId ≠ EmptyString.
Proof.
  intros Hdirect. unfold getChatDisplayName. rewrite Hdirect.
  destruct (find _ _) as [other|]; [|apply unknownUser_nonempty].
  apply str_or_nonempty, str_or_nonempty, unknownUser_nonempty.
Qed.

Lemma direct_display_name_nonempty_witness :
  getChatDisplayName (direct_chat [alice_participant; nameless_participant]) 1
  ≠ EmptyString.
Proof.
  apply (direct_display_name_nonempty
           (direct_chat [alice_participant; nameless_participant]) 1).
  reflexivity.
Defined.

Lemma normalized_name clock rawChatId participant :
  str_or (u_username <$> p_user (normalizeParticipant clock rawChatId participant))
         (str_or (p_username (normalizeParticipant clock rawChatId participant))
                 unknownUser)
  = str_or (u_username <$> rp_user participant)
           (str_or (rp_username participant) unknownUser).
Proof.
  unfold normalizeParticipant.
  cbn [p_user p_username fmap option_fmap option_map].
  assert (∀ s d, str_or (Some (str_or s unknownUser)) d = str_or s unknownUser)
    as Hwrap.
  { intros s d. apply str_or_Some_nonempty, str_or_nonempty, unknownUser_nonempty. }
  assert (∀ d, str_or (Some EmptyString) d = d) as Hempty by done.
  destruct (rp_user participant) as [u|];
    cbn [fmap option_fmap option_map u_username].
  - destruct (decide (u_username u = EmptyString)) as [Hu|Hu].
    + rewrite Hu, !Hempty. apply Hwrap.
    + by rewrite !(str_or_Some_nonempty (u_username u)) by done.
  - apply Hwrap.
Qed.

Lemma find_normalized (f : nat → bool → string) rawChatId cur
    (ps : list RawParticipant) :
  (λ q, str_or (u_username <$> p_user q) (str_or (p_username q) unknownUser))
    <$> find (λ q, bool_decide (p_userId q ≠ cur))
             (imap (λ i, normalizeParticipant (f i) rawChatId) ps)
  = (λ o, str_or (u_username <$> rp_user o) (str_or (rp_username o) unknownUser))
      <$> find (λ o, bool_decide (rp_userId o ≠ cur)) ps.
Proof.
  revert f. induction ps as [|o ps IH]; intros f; [done|].
  rewrite imap_cons. cbn [find].
  change (p_userId (normalizeParticipant (f 0%nat) rawChatId o)) with (rp_userId o).
  destruct (bool_decide (rp_userId o ≠ cur)).
  - cbn [fmap option_fmap option_map]. f_equal. apply normalized_name.
  - apply (IH (f ∘ S)).
Qed.

(** X19. Normalisation does not change what a chat is called: the display
    name of [normalizeChat(rawChat)] is the raw chat's name for a group, and
    otherwise it is read off the first raw participant whose userId is not
    the current user's -- its user's username, else its own username, else
    the placeholder, taking the first that is a non-empty string -- or is the
    placeholder when there is no such participant. The clock readings play
    no part. *)
Theorem display_name_of_normalized (clock : nat → bool → string)
    (rawChat : RawChat) (currentUserId : Z) :
  getChatDisplayName (normalizeChat clock rawChat) currentUserId
  = match default direct (rc_type rawChat) with
    | group => rc_name rawChat
    | direct =>
        match find (λ o, bool_decide (rp_userId o ≠ currentUserId))
                   (default [] (rc_participants rawChat)) with
        | Some o => str_or (u_username <$> rp_user o)
                           (str_or (rp_username o) unknownUser)
        | None => unknownUser
        end
    end.
Proof.
  unfold getChatDisplayName, normalizeChat. simpl.
  destruct (default direct (rc_type rawChat)); [|done].
  destruct (rc_participants rawChat) as [ps|]; [|done]. simpl.
  pose proof (find_normalized clock (rc_id rawChat) currentUserId ps) as Hfind.
  destruct (find _ (imap _ ps)) as [q|];
    destruct (find _ ps) as [o|]; simpl in Hfind; congruence.
Qed.

(** ** Looking up a direct chat *)

Lemma isDirectChatBetween_true cur other chat :
  isDirectChatBetween cur other chat = true
  ↔ c_type chat = direct
    ∧ length (c_participants chat) = 2%nat
    ∧ cur ∈ (p_userId <$> c_participants chat)
    ∧ other ∈ (p_userId <$> c_participants chat).
Proof.
  unfold isDirectChatBetween. destruct (c_type chat).
  - case_decide as Hlen.
    + split; [done|]. intros (_ & Hl & _). done.
    + rewrite andb_true_iff, !bool_decide_eq_true.
      split; [intros [? ?] | intros (_ & _ & ? & ?)]; repeat split; try done.
  - split; [done|]. intros [? _]. done.
Qed.

(** X20. [findExistingDirectChat] returns the first chat of the list that is
    direct, has exactly two participants and has both user ids among their
    userIds, and [null] exactly when the list holds no such chat. *)
Theorem findExistingDirectChat_first_match (chats : list Chat)
    (currentUserId otherUserId : Z) :
  (∀ chat, findExistingDirectChat chats currentUserId otherUserId = Some chat →
     c_type chat = direct
     ∧ length (c_participants chat) = 2%nat
     ∧ currentUserId ∈ (p_userId <$> c_participants chat)
     ∧ otherUserId ∈ (p_userId <$> c_participants chat)
     ∧ ∃ before after,
         chats = before ++ chat :: after
         ∧ ∀ earlier, earlier ∈ before →
             isDirectChatBetween currentUserId otherUserId earlier = false)
  ∧ (findExistingDirectChat chats currentUserId otherUserId = None
     ↔ ∀ chat, chat ∈ chats →
         ¬ (c_type chat = direct
            ∧ length (c_participants chat) = 2%nat
            ∧ currentUserId ∈ (p_userId <$> c_participants chat)
            ∧ otherUserId ∈ (p_userId <$> c_participants chat))).
Proof.
  unfold findExistingDirectChat. split.
  - induction chats as [|c chats IH]; intros chat Hfind; [done|].
    simpl in Hfind.
    destruct (isDirectChatBetween currentUserId otherUserId c) eqn:Hc.
    + injection Hfind as <-.
      apply isDirectChatBetween_true in Hc as (? & ? & ? & ?).
      repeat split; try done. exists [], chats. split; [done|].
      intros earlier Hin. by apply elem_of_nil in Hin.
    + destruct (IH chat Hfind) as (? & ? & ? & ? & before & after & -> & Hbefore).
      repeat split; try done. exists (c :: before), after. split; [done|].
      intros earlier Hin. apply elem_of_cons in Hin as [->|Hin]; [done|].
      by apply Hbefore.
  - split.
    + intros Hnone chat Hin Hmatch. apply list_elem_of_In in Hin.
      pose proof (find_none _ _ Hnone chat Hin) as Hno.
      apply isDirectChatBetween_true in Hmatch. congruence.
    + intros Hall. destruct (find _ chats) as [chat|] eqn:Hfind; [|done].
      apply find_some in Hfind as [Hin Hmatch]. apply list_elem_of_In in Hin.
      apply isDirectChatBetween_true in Hmatch. by destruct (Hall chat Hin).
Qed.

Lemma findExistingDirectChat_first_match_witness :
  c_type chat7 = direct
  ∧ length (c_participants chat7) = 2%nat.
Proof.
  destruct (proj1 (findExistingDirectChat_first_match [chat7] 1 2) chat7 eq_refl)
    as (Hd & Hl & _).
  split; [exact Hd | exact Hl].
Defined.

(** X21. [findExistingDirectChat] does not depend on the order of the two
    user ids; for two different ids the chat found has exactly these two
    users as participants, in one order or the other; and asked for a chat
    of a user with itself it returns the first two-participant direct chat
    that user is in, whoever the other participant is. *)
Theorem findExistingDirectChat_pair (chats : list Chat) (currentUserId otherUserId : Z) :
  findExistingDirectChat chats currentUserId otherUserId
  = findExistingDirectChat chats otherUserId currentUserId
  ∧ (∀ chat, currentUserId ≠ otherUserId →
       findExistingDirectChat chats currentUserId otherUserId = Some chat →
       p_userId <$> c_participants chat = [currentUserId; otherUserId]
       ∨ p_userId <$> c_participants chat = [otherUserId; currentUserId])
  ∧ (∀ chat, isDirectChatBetween currentUserId currentUserId chat = true
             ↔ c_type chat = direct
               ∧ length (c_participants chat) = 2%nat
               ∧ currentUserId ∈ (p_userId <$> c_participants chat)).
Proof.
  split; [|split].
  - unfold findExistingDirectChat.
    induction chats as [|c chats IH]; [done|]. simpl.
    assert (isDirectChatBetween currentUserId otherUserId c
            = isDirectChatBetween otherUserId currentUserId c) as ->.
    { unfold isDirectChatBetween. destruct (c_type c); [|done].
      case_decide; [done|]. apply andb_comm. }
    by rewrite IH.
  - intros chat Hne Hfind. unfold findExistingDirectChat in Hfind.
    apply find_some in Hfind as [_ Hmatch].
    apply isDirectChatBetween_true in Hmatch as (_ & Hlen & Hcur & Hother).
    destruct (c_participants chat) as [|a [|b [|? ?]]]; try done.
    simpl in *.
    apply elem_of_cons in Hcur as [Hcur|Hcur];
      apply elem_of_cons in Hother as [Hother|Hother];
      rewrite ?list_elem_of_singleton in *; subst; try done; auto.
  - intros chat. rewrite isDirectChatBetween_true. tauto.
Qed.

Lemma findExistingDirectChat_pair_witness :
  p_userId <$> c_participants chat7 = [1; 2]
  ∨ p_userId <$> c_participants chat7 = [2; 1].
Proof.
  refine (proj1 (proj2 (findExistingDirectChat_pair [chat7] 1 2)) chat7 _ _).
  - lia.
  - reflexivity.
Defined.

(** ** The message emitter *)

Lemma calls_of_filtered (throws : nat → bool) (callback : nat) (l : list nat) :
  (λ cb, (cb, throws cb)) <$> filter (λ cb, cb ≠ callback) l
  = filter (λ call : nat * bool, call.1 ≠ callback) ((λ cb, (cb, throws cb)) <$> l).
Proof.
  induction l as [|cb l IH]; [done|].
  rewrite fmap_cons, !filter_cons. simpl.
  destruct (decide (cb ≠ callback)); [rewrite fmap_cons|]; by rewrite IH.
Qed.

Lemma slot_insert_eq listeners event callbacks :
  MessageEmitter.slot (<[event := callbacks]> listeners) event
  = MessageEmitter.Registered callbacks.
Proof. unfold MessageEmitter.slot. by rewrite lookup_insert_eq. Qed.

Lemma slot_insert_ne listeners event other callbacks :
  other ≠ event →
  MessageEmitter.slot (<[event := callbacks]> listeners) other
  = MessageEmitter.slot listeners other.
Proof. intros Hne. unfold MessageEmitter.slot. by rewrite lookup_insert_ne. Qed.

Lemma emit_after_on throws event callback listeners :
  MessageEmitter.andThen (MessageEmitter.on event callback listeners)
    (MessageEmitter.emit throws event)
  = option_map (λ calls, calls ++ [(callback, throws callback)])
      (MessageEmitter.emit throws event listeners).
Proof.
  unfold MessageEmitter.on, MessageEmitter.emit.
  destruct (MessageEmitter.slot listeners event) as [callbacks| |]; simpl;
    rewrite ?slot_insert_eq; try done.
  by rewrite fmap_app.
Qed.

Lemma emit_after_off throws event callback listeners :
  MessageEmitter.andThen (MessageEmitter.off event callback listeners)
    (MessageEmitter.emit throws event)
  = option_map (filter (λ call : nat * bool, call.1 ≠ callback))
      (MessageEmitter.emit throws event listeners).
Proof.
  unfold MessageEmitter.off, MessageEmitter.emit.
  destruct (MessageEmitter.slot listeners event) as [callbacks| |] eqn:Hslot; simpl;
    rewrite ?slot_insert_eq, ?Hslot; try done.
  by rewrite calls_of_filtered.
Qed.

Lemma on_is_Some_emit throws event callback listeners after :
  MessageEmitter.on event callback listeners = Some after →
  ∃ calls, MessageEmitter.emit throws event listeners = Some calls
           ∧ MessageEmitter.emit throws event after
             = Some (calls ++ [(callback, throws callback)]).
Proof.
  intros Hon. pose proof (emit_after_on throws event callback listeners) as Hemit.
  rewrite Hon in Hemit. simpl in Hemit.
  destruct (MessageEmitter.emit throws event listeners) as [calls|] eqn:Hcalls.
  - exists calls. by split.
  - unfold MessageEmitter.on in Hon. unfold MessageEmitter.emit in Hcalls.
    by destruct (MessageEmitter.slot listeners event).
Qed.

(** X22. Registration order is call order. [on] and then [emit] for the same
    event make the calls that [emit] made before and then call the new
    listener, once for each time it was registered; [on] and [off] for one
    event do not change what [emit] does for another; an event that was
    never registered makes no call. The exception are the event names that
    [Object.prototype] answers for ('toString', 'constructor', 'valueOf',
    ...): for those, [on], [off] and [emit] all throw a TypeError, and so do
    the sequences above. *)
Theorem emitter_on_appends (throws : nat → bool) (event other : string)
    (callback : nat) (listeners : gmap string (list nat)) :
  MessageEmitter.andThen (MessageEmitter.on event callback listeners)
    (MessageEmitter.emit throws event)
  = option_map (λ calls, calls ++ [(callback, throws callback)])
      (MessageEmitter.emit throws event listeners)
  ∧ MessageEmitter.andThen
      (MessageEmitter.andThen (MessageEmitter.on event callback listeners)
         (MessageEmitter.on event callback))
      (MessageEmitter.emit throws event)
    = option_map
        (λ calls, calls ++ [(callback, throws callback); (callback, throws callback)])
        (MessageEmitter.emit throws event listeners)
  ∧ (other ≠ event →
     (∀ after, MessageEmitter.on event callback listeners = Some after →
        MessageEmitter.emit throws other after
        = MessageEmitter.emit throws other listeners)
     ∧ (∀ after, MessageEmitter.off event callback listeners = Some after →
          MessageEmitter.emit throws other after
          = MessageEmitter.emit throws other listeners))
  ∧ (event ∉ MessageEmitter.inheritedFromObject →
     MessageEmitter.emit throws event ∅ = Some []
     ∧ is_Some (MessageEmitter.on event callback listeners)
     ∧ is_Some (MessageEmitter.off event callback listeners)
     ∧ is_Some (MessageEmitter.emit throws event listeners))
  ∧ (event ∈ MessageEmitter.inheritedFromObject → listeners !! event = None →
     MessageEmitter.on event callback listeners = None
     ∧ MessageEmitter.off event callback listeners = None
     ∧ MessageEmitter.emit throws event listeners = None).
Proof.
  split; [apply emit_after_on|]. split; [|split; [|split]].
  - destruct (MessageEmitter.on event callback listeners) as [after|] eqn:Hon.
    + destruct (on_is_Some_emit throws _ _ _ _ Hon) as (calls & Hcalls & Hafter).
      cbn [MessageEmitter.andThen]. rewrite emit_after_on, Hafter, Hcalls. simpl.
      by rewrite <- app_assoc.
    + pose proof (emit_after_on throws event callback listeners) as Hemit.
      rewrite Hon in Hemit. simpl in Hemit. simpl.
      destruct (MessageEmitter.emit throws event listeners); [done|done].
  - intros Hne. unfold MessageEmitter.on, MessageEmitter.off, MessageEmitter.emit.
    split; intros after;
      destruct (MessageEmitter.slot listeners event) as [callbacks| |];
      intros [= <-]; by rewrite ?slot_insert_ne.
  - intros Hnot.
    unfold MessageEmitter.on, MessageEmitter.off, MessageEmitter.emit,
      MessageEmitter.slot.
    rewrite lookup_empty, decide_False by done.
    split; [done|].
    destruct (listeners !! event); repeat split; by eexists.
  - intros Hin Hnone.
    unfold MessageEmitter.on, MessageEmitter.off, MessageEmitter.emit,
      MessageEmitter.slot.
    rewrite Hnone, decide_True by done. done.
Qed.

Lemma emitter_on_appends_witness :
  MessageEmitter.emit (λ _, false) "messageAdded" ∅ = Some []
  ∧ MessageEmitter.on "toString" 1%nat ∅ = None.
Proof.
  split.
  - refine (proj1 (proj1 (proj2 (proj2 (proj2 (emitter_on_appends (λ _, false)
              "messageAdded" "typing" 1%nat ∅)))) _)).
    vm_compute. intros Hin.
    repeat (apply elem_of_cons in Hin as [Hin|Hin]; [discriminate|]).
    by apply elem_of_nil in Hin.
  - refine (proj1 (proj2 (proj2 (proj2 (proj2 (emitter_on_appends (λ _, false)
              "toString" "typing" 1%nat ∅)))) _ _)).
    + vm_compute. do 5 apply list_elem_of_further. apply list_elem_of_here.
    + reflexivity.
Defined.

(** X23. [off] and then [emit] make the calls that [emit] made before
    without those of the callback, the others in their order: every
    registration of the callback for the event is removed, however often it
    was registered; for a callback that was not registered before, [on]
    followed by [off] leaves [emit] making exactly the calls it made before.
    For the event names that [Object.prototype] answers for, [off] throws a
    TypeError instead. *)
Theorem emitter_off_removes_all (throws : nat → bool) (event : string)
    (callback : nat) (listeners : gmap string (list nat)) :
  MessageEmitter.andThen (MessageEmitter.off event callback listeners)
    (MessageEmitter.emit throws event)
  = option_map (filter (λ call : nat * bool, call.1 ≠ callback))
      (MessageEmitter.emit throws event listeners)
  ∧ (∀ calls,
       MessageEmitter.andThen
         (MessageEmitter.andThen
            (MessageEmitter.andThen (MessageEmitter.on event callback listeners)
               (MessageEmitter.on event callback))
            (MessageEmitter.off event callback))
         (MessageEmitter.emit throws event) = Some calls →
       callback ∉ (fst <$> calls))
  ∧ (∀ calls, MessageEmitter.emit throws event listeners = Some calls →
       callback ∉ (fst <$> calls) →
       MessageEmitter.andThen
         (MessageEmitter.andThen (MessageEmitter.on event callback listeners)
            (MessageEmitter.off event callback))
         (MessageEmitter.emit throws event) = Some calls)
  ∧ (event ∈ MessageEmitter.inheritedFromObject → listeners !! event = None →
     MessageEmitter.off event callback listeners = None).
Proof.
  split; [apply emit_after_off|]. split; [|split].
  - intros calls.
    destruct (MessageEmitter.on event callback listeners) as [l1|]; [|done].
    cbn [MessageEmitter.andThen].
    destruct (MessageEmitter.on event callback l1) as [l2|]; [|done].
    cbn [MessageEmitter.andThen]. rewrite emit_after_off.
    destruct (MessageEmitter.emit throws event l2) as [calls2|]; [|done].
    intros [= <-] Hin.
    apply list_elem_of_fmap in Hin as (call & -> & Hin).
    apply list_elem_of_filter in Hin as [Hne _]. done.
  - intros calls Hcalls Hfresh.
    destruct (MessageEmitter.on event callback listeners) as [after|] eqn:Hon.
    + destruct (on_is_Some_emit throws _ _ _ _ Hon) as (calls' & Hcalls' & Hafter).
      cbn [MessageEmitter.andThen]. rewrite emit_after_off, Hafter. simpl. f_equal.
      rewrite Hcalls in Hcalls'. injection Hcalls' as <-.
      rewrite filter_app, filter_cons, decide_False by (simpl; tauto).
      rewrite filter_nil, app_nil_r.
      clear Hcalls Hafter. induction calls as [|call l IH]; [done|].
      rewrite fmap_cons, not_elem_of_cons in Hfresh. destruct Hfresh as [Hc Hl].
      rewrite filter_cons, decide_True by (simpl; congruence).
      by rewrite IH.
    + unfold MessageEmitter.on in Hon. unfold MessageEmitter.emit in Hcalls.
      by destruct (MessageEmitter.slot listeners event).
  - intros Hin Hnone. unfold MessageEmitter.off, MessageEmitter.slot.
    by rewrite Hnone, decide_True.
Qed.

Lemma emitter_off_removes_all_witness :
  MessageEmitter.andThen
    (MessageEmitter.andThen
       (MessageEmitter.on "messageAdded" 2%nat {[ "messageAdded" := [1%nat] ]})
       (MessageEmitter.off "messageAdded" 2%nat))
    (MessageEmitter.emit (λ _, false) "messageAdded")
  = Some [(1%nat, false)]
  ∧ MessageEmitter.off "valueOf" 2%nat ∅ = None.
Proof.
  split.
  - refine (proj1 (proj2 (proj2 (emitter_off_removes_all (λ _, false)
              "messageAdded" 2%nat {[ "messageAdded" := [1%nat] ]})))
              [(1%nat, false)] _ _).
    + reflexivity.
    + vm_compute. intros Hin. apply list_elem_of_singleton in Hin. discriminate.
  - refine (proj2 (proj2 (proj2 (emitter_off_removes_all (λ _, false)
              "valueOf" 2%nat ∅))) _ _).
    + vm_compute. do 6 apply list_elem_of_further. apply list_elem_of_here.
    + reflexivity.
Defined.

(** ** Reconnection delays *)

(** X24. The reconnection policy retries exactly five times: for the retry
    counts 0 to 4 the delay is 1000ms doubled that many times (1000, 2000,
    4000, 8000, 16000), each delay twice the one before, and from count 5 on
    the answer is "stop". The 30000ms cap is never reached: no delay exceeds
    16000ms. *)
Theorem reconnect_delays (previousRetryCount : nat) :
  (nextRetryDelayInMilliseconds previousRetryCount = None
   ↔ (5 ≤ previousRetryCount)%nat)
  ∧ (∀ delay, nextRetryDelayInMilliseconds previousRetryCount = Some delay →
       delay = 1000 * 2 ^ Z.of_nat previousRetryCount
       ∧ 1000 ≤ delay ≤ 16000
       ∧ (∀ next, nextRetryDelayInMilliseconds (S previousRetryCount) = Some next →
            next = 2 * delay)).
Proof.
  unfold nextRetryDelayInMilliseconds, maxReconnectAttempts. split.
  - case_bool_decide; split; try done; lia.
  - intros delay. case_bool_decide as Hn; [done|]. intros [= <-].
    assert (previousRetryCount < 5)%nat as Hlt by lia.
    do 5 (destruct previousRetryCount as [|previousRetryCount];
          [vm_compute; repeat split; try (intros ?; discriminate);
           try (intros next [= <-]; reflexivity); try done|]).
    lia.
Qed.

Lemma reconnect_delays_witness :
  16000 = 1000 * 2 ^ Z.of_nat 4 ∧ 1000 ≤ 16000 ≤ 16000.
Proof.
  destruct (proj2 (reconnect_delays 4) 16000 eq_refl) as (H1 & H2 & _).
  split; [exact H1 | exact H2].
Defined.

(** ** Probing for the backend *)

Lemma checkPorts_None respond host remaining :
  CheckBackend.checkPorts respond host remaining = None
  ↔ ∀ protocol port, port ∈ remaining → respond protocol host port = None.
Proof.
  induction remaining as [|port rest IH]; simpl.
  - split; [|done]. intros _ protocol port Hin. by apply elem_of_nil in Hin.
  - unfold CheckBackend.checkEndpoint.
    destruct (respond CheckBackend.https host port) eqn:Hs; simpl.
    { split; [done|]. intros Hall.
      rewrite (Hall CheckBackend.https port) in Hs; [done|apply list_elem_of_here]. }
    destruct (respond CheckBackend.http host port) eqn:Hp; simpl.
    { split; [done|]. intros Hall.
      rewrite (Hall CheckBackend.http port) in Hp; [done|apply list_elem_of_here]. }
    rewrite IH. split.
    + intros Hall protocol q Hin. apply elem_of_cons in Hin as [->|Hin].
      * by destruct protocol.
      * by apply Hall.
    + intros Hall protocol q Hin. apply Hall. by apply list_elem_of_further.
Qed.

Lemma checkPorts_Some respond host remaining found :
  CheckBackend.checkPorts respond host remaining = Some found →
  ∃ protocol port,
    port ∈ remaining
    ∧ is_Some (respond protocol host port)
    ∧ found = CheckBackend.endpointUrl protocol host port
    ∧ (protocol = CheckBackend.http → respond CheckBackend.https host port = None).
Proof.
  induction remaining as [|port rest IH]; simpl; [done|].
  unfold CheckBackend.checkEndpoint.
  destruct (respond CheckBackend.https host port) eqn:Hs; simpl.
  { intros [= <-]. exists CheckBackend.https, port.
    rewrite Hs. repeat split; eauto using list_elem_of_here. done. }
  destruct (respond CheckBackend.http host port) eqn:Hp; simpl.
  { intros [= <-]. exists CheckBackend.http, port.
    rewrite Hp. repeat split; eauto using list_elem_of_here. }
  intros Hfound. destruct (IH Hfound) as (protocol & q & Hin & Hresp & Hurl & Hpref).
  exists protocol, q. repeat split; try done. by apply list_elem_of_further.
Qed.

(** X25. [checkAllEndpoints] reports no backend exactly when none of the
    probes (https and http, two hosts, four ports) gets a response; the url
    it returns otherwise is that of a probed endpoint that did respond, with
    whatever status code, and an http url is returned only if https did not
    respond on the same host and port. *)
Theorem checkAllEndpoints_finds_a_responder
    (respond : CheckBackend.Protocol → string → Z → option Z) :
  (CheckBackend.checkAllEndpoints respond = None
   ↔ ∀ protocol host port,
       host ∈ CheckBackend.hosts → port ∈ CheckBackend.ports →
       respond protocol host port = None)
  ∧ (∀ found, CheckBackend.checkAllEndpoints respond = Some found →
       ∃ protocol host port,
         host ∈ CheckBackend.hosts ∧ port ∈ CheckBackend.ports
         ∧ is_Some (respond protocol host port)
         ∧ found = CheckBackend.endpointUrl protocol host port
         ∧ (protocol = CheckBackend.http →
            respond CheckBackend.https host port = None)).
Proof.
  unfold CheckBackend.checkAllEndpoints.
  generalize CheckBackend.hosts as remaining.
  intros remaining. split.
  - induction remaining as [|host rest IH]; cbn [CheckBackend.checkHosts].
    + split; [|done]. intros _ protocol host port Hin. by apply elem_of_nil in Hin.
    + destruct (CheckBackend.checkPorts respond host CheckBackend.ports) eqn:Hp.
      * split; [done|]. intros Hall.
        assert (CheckBackend.checkPorts respond host CheckBackend.ports = None) as Hn.
        { apply checkPorts_None. intros protocol port Hin.
          apply Hall; [apply list_elem_of_here | done]. }
        congruence.
      * rewrite IH. pose proof (proj1 (checkPorts_None _ _ _) Hp) as Hnone. split.
        -- intros Hall protocol h port Hin Hport.
           apply elem_of_cons in Hin as [->|Hin]; [by apply Hnone | by apply Hall].
        -- intros Hall protocol h port Hin Hport. apply Hall; [|done].
           by apply list_elem_of_further.
  - induction remaining as [|host rest IH]; cbn [CheckBackend.checkHosts]; [done|].
    intros found.
    destruct (CheckBackend.checkPorts respond host CheckBackend.ports) eqn:Hp.
    + intros [= <-].
      destruct (checkPorts_Some _ _ _ _ Hp) as (protocol & port & ? & ? & ? & ?).
      exists protocol, host, port. repeat split; try done. apply list_elem_of_here.
    + intros Hfound.
      destruct (IH found Hfound) as (protocol & h & port & ? & ? & ? & ? & ?).
      exists protocol, h, port. repeat split; try done. by apply list_elem_of_further.
Qed.

Lemma checkAllEndpoints_finds_a_responder_witness :
  ∃ protocol host port,
    host ∈ CheckBackend.hosts ∧ port ∈ CheckBackend.ports
    ∧ is_Some (only_http_7000 protocol host port)
    ∧ "http://127.0.0.1:7000" = CheckBackend.endpointUrl protocol host port
    ∧ (protocol = CheckBackend.http →
       only_http_7000 CheckBackend.https host port = None).
Proof.
  exact (proj2 (checkAllEndpoints_finds_a_responder only_http_7000)
           "http://127.0.0.1:7000" eq_refl).
Defined.

(** ** Creating a chat *)

Lemma find_other_id_Some (uid : Z) (l : list Z) (x : Z) :
  find (λ id, bool_decide (id ≠ uid)) l = Some x
  ↔ x ≠ uid ∧ ∃ before after, l = before ++ x :: after ∧ ∀ y, y ∈ before → y = uid.
Proof.
  induction l as [|z l IH]; simpl.
  - split; [done|]. intros (_ & before & after & Heq & _). by destruct before.
  - destruct (decide (z = uid)) as [Hz|Hz].
    + rewrite bool_decide_eq_false_2 by tauto. rewrite IH. split.
      * intros (Hx & before & after & -> & Hall). split; [done|].
        exists (z :: before), after. split; [done|].
        intros y Hy. apply elem_of_cons in Hy as [->|Hy]; [done|by apply Hall].
      * intros (Hx & before & after & Heq & Hall). split; [done|].
        destruct before as [|w before].
        -- simpl in Heq. injection Heq as -> _. done.
        -- simpl in Heq. injection Heq as -> ->. exists before, after.
           split; [done|]. intros y Hy. apply Hall. by apply list_elem_of_further.
    + rewrite bool_decide_eq_true_2 by done. split.
      * intros [= <-]. split; [done|]. exists [], l. split; [done|].
        intros y Hy. by apply elem_of_nil in Hy.
      * intros (Hx & before & after & Heq & Hall).
        destruct before as [|w before].
        -- simpl in Heq. by injection Heq as -> _.
        -- simpl in Heq. injection Heq as -> _.
           exfalso. apply Hz, Hall, list_elem_of_here.
Qed.

Lemma find_other_id_None (uid : Z) (l : list Z) :
  find (λ id, bool_decide (id ≠ uid)) l = None ↔ ∀ y, y ∈ l → y = uid.
Proof.
  induction l as [|z l IH]; simpl.
  - split; [|done]. intros _ y Hy. by apply elem_of_nil in Hy.
  - destruct (decide (z = uid)) as [Hz|Hz].
    + rewrite bool_decide_eq_false_2 by tauto. rewrite IH. split.
      * intros Hall y Hy. apply elem_of_cons in Hy as [->|Hy]; [done|by apply Hall].
      * intros Hall y Hy. apply Hall. by apply list_elem_of_further.
    + rewrite bool_decide_eq_true_2 by done. split; [done|].
      intros Hall. exfalso. apply Hz, Hall, list_elem_of_here.
Qed.

(** X26. What [createChat] asks of the gateway. It makes a direct request
    exactly when there are two participant ids and one of them is not the
    local user's: the request then names the local user first and, second,
    the first listed id that is not the local user's (every id listed before
    it is the local user's), provided that id is not 0. With any other number
    of ids it makes a group request with the name and the ids as given. It
    fails with "Invalid participant IDs for direct chat", before any request,
    exactly when there are two ids and either both are the local user's or
    the first one that is not is 0. So [0; a] is refused for every [a] when
    the local user's id is not 0; a local user with id 0 gets the direct
    request (0, a) for [a] other than 0. *)
Theorem createChat_request_cases (p : Provider) (name : string)
    (participantIds : list Z) :
  (∀ userId1 userId2,
     createChat_request p name participantIds
     = inl (CreateOrGetDirectChat userId1 userId2)
     ↔ length participantIds = 2%nat ∧ userId1 = u_id (user p)
       ∧ userId2 ≠ u_id (user p) ∧ userId2 ≠ 0
       ∧ ∃ before after,
           participantIds = before ++ userId2 :: after
           ∧ ∀ id, id ∈ before → id = u_id (user p))
  ∧ (∀ groupName ids,
       createChat_request p name participantIds = inl (CreateGroupChat groupName ids)
       ↔ length participantIds ≠ 2%nat ∧ groupName = name ∧ ids = participantIds)
  ∧ (∀ error,
       createChat_request p name participantIds = inr error
       ↔ error = invalidParticipants
         ∧ length participantIds = 2%nat
         ∧ ((∀ id, id ∈ participantIds → id = u_id (user p))
            ∨ (u_id (user p) ≠ 0
               ∧ ∃ before after,
                   participantIds = before ++ 0 :: after
                   ∧ ∀ id, id ∈ before → id = u_id (user p))))
  ∧ (∀ a, createChat_request p name [0; a]
          = if decide (u_id (user p) = 0)
            then if decide (a = 0) then inr invalidParticipants
                 else inl (CreateOrGetDirectChat 0 a)
            else inr invalidParticipants).
Proof.
  unfold createChat_request. split; [|split; [|split]].
  - intros userId1 userId2. case_decide as Hlen.
    + destruct (find _ participantIds) as [other|] eqn:Hfind.
      * apply find_other_id_Some in Hfind as Hother.
        destruct Hother as (Hne & before & after & Heq & Hall).
        case_decide as Hzero.
        -- split; [done|]. intros (_ & _ & Hne2 & Hnz & before2 & after2 & Heq2 & Hall2).
           assert (find (λ id, bool_decide (id ≠ u_id (user p))) participantIds
                   = Some userId2) as Hfind2.
           { apply find_other_id_Some. split; [done|]. eauto. }
           congruence.
        -- split.
           ++ intros [= <- <-]. repeat split; try done. eauto.
           ++ intros (_ & -> & Hne2 & Hnz & before2 & after2 & Heq2 & Hall2).
              assert (find (λ id, bool_decide (id ≠ u_id (user p))) participantIds
                      = Some userId2) as Hfind2.
              { apply find_other_id_Some. split; [done|]. eauto. }
              congruence.
      * split; [done|]. intros (_ & _ & Hne2 & Hnz & before2 & after2 & Heq2 & Hall2).
        assert (find (λ id, bool_decide (id ≠ u_id (user p))) participantIds
                = Some userId2) as Hfind2.
        { apply find_other_id_Some. split; [done|]. eauto. }
        congruence.
    + split; [done|]. by intros (? & _).
  - intros groupName ids. case_decide as Hlen.
    + split; [|by intros (? & _)].
      destruct (find _ participantIds) as [other|]; [case_decide|]; done.
    + split; [by intros [= <- <-]|]. by intros (_ & -> & ->).
  - intros error. case_decide as Hlen.
    + destruct (find _ participantIds) as [other|] eqn:Hfind.
      * apply find_other_id_Some in Hfind as Hother.
        destruct Hother as (Hne & before & after & Heq & Hall).
        case_decide as Hzero.
        -- subst other. split.
           ++ intros [= <-]. split; [done|]. split; [done|]. right.
              split; [congruence|]. eauto.
           ++ by intros (-> & _).
        -- split; [done|]. intros (_ & _ & [Hsame|(Huid & before2 & after2 & Heq2 & Hall2)]).
           ++ apply find_other_id_None in Hsame. congruence.
           ++ assert (find (λ id, bool_decide (id ≠ u_id (user p))) participantIds
                      = Some 0) as Hfind2.
              { apply find_other_id_Some. split; [congruence|]. eauto. }
              congruence.
      * split.
        -- intros [= <-]. split; [done|]. split; [done|]. left.
           by apply find_other_id_None.
        -- by intros (-> & _).
    + split; [done|]. by intros (_ & ? & _).
  - intros a. rewrite decide_True by done. cbn [find].
    destruct (decide (u_id (user p) = 0)) as [Hu|Hu].
    + rewrite Hu. rewrite bool_decide_eq_false_2 by tauto.
      destruct (decide (a = 0)) as [->|Ha].
      * by rewrite bool_decide_eq_false_2 by tauto.
      * rewrite bool_decide_eq_true_2 by done. by rewrite decide_False.
    + rewrite bool_decide_eq_true_2 by congruence. by rewrite decide_True.
Qed.

Lemma createChat_request_cases_witness :
  createChat_request (fresh_provider alice) "x" [1; 2]
  = inl (CreateOrGetDirectChat 1 2)
  ∧ createChat_request (fresh_provider alice) "x" [1; 1]
    = inr invalidParticipants.
Proof.
  split.
  - refine (proj2 (proj1 (createChat_request_cases (fresh_provider alice) "x" [1; 2])
                     1 2) _).
    split; [reflexivity|]. split; [reflexivity|].
    split; [simpl; lia|]. split; [lia|].
    exists [1], []. split; [reflexivity|].
    intros id Hid. by apply list_elem_of_singleton in Hid as ->.
  - refine (proj2 (proj1 (proj2 (proj2 (createChat_request_cases
                     (fresh_provider alice) "x" [1; 1]))) invalidParticipants) _).
    split; [reflexivity|]. split; [reflexivity|]. left.
    intros id Hid.
    apply elem_of_cons in Hid as [->|Hid]; [done|].
    by apply list_elem_of_singleton in Hid as ->.
Defined.

Lemma find_chat_id_None (l : list Chat) (chatId : Z) :
  find (λ chat, bool_decide (c_id chat = chatId)) l = None
  ↔ chatId ∉ (c_id <$> l).
Proof.
  split.
  - intros Hfind Hin. apply list_elem_of_fmap in Hin as (c & -> & Hc).
    apply list_elem_of_In in Hc.
    pose proof (find_none _ _ Hfind c Hc) as Hno. simpl in Hno.
    by apply bool_decide_eq_false in Hno.
  - intros Hnot. destruct (find _ l) as [c|] eqn:Hfind; [|done].
    apply find_some in Hfind as [Hc Heq]. apply bool_decide_eq_true in Heq.
    exfalso. apply Hnot. apply list_elem_of_fmap. exists c.
    split; [done|]. by apply list_elem_of_In.
Qed.

(** X27. When [createChat] reads the chat list of the current store, the
    gateway's answer never puts a second chat with the same id into the
    list: a chat whose id is listed leaves the list as it is, a new one is
    put at its head; afterwards the id is listed, ids are still unique if
    they were, the selection is not yet changed, and [joinChat] is asked for
    the chat. *)
Theorem createChat_resume_no_duplicate (clock : nat → bool → string) (now : Z)
    (p : Provider) (rawChat : RawChat) :
  NoDup (c_id <$> chats (state p)) →
  NoDup (c_id <$> chats (state (co_provider
           (createChat_resume clock now (state p) p (inl rawChat)))))
  ∧ rc_id rawChat ∈ (c_id <$> chats (state (co_provider
           (createChat_resume clock now (state p) p (inl rawChat)))))
  ∧ (rc_id rawChat ∈ (c_id <$> chats (state p)) →
     co_provider (createChat_resume clock now (state p) p (inl rawChat)) = p)
  ∧ (rc_id rawChat ∉ (c_id <$> chats (state p)) →
     chats (state (co_provider (createChat_resume clock now (state p) p (inl rawChat))))
     = normalizeChat clock rawChat :: chats (state p))
  ∧ activeChat (state (co_provider
           (createChat_resume clock now (state p) p (inl rawChat))))
    = activeChat (state p)
  ∧ co_effects (createChat_resume clock now (state p) p (inl rawChat))
    = [JoinChat (rc_id rawChat)].
Proof.
  intros Hnodup. unfold createChat_resume. cbn [co_provider co_effects].
  change (c_id (normalizeChat clock rawChat)) with (rc_id rawChat).
  destruct (find _ (chats (state p))) as [c|] eqn:Hfind.
  - assert (rc_id rawChat ∈ (c_id <$> chats (state p))) as Hin.
    { apply find_some in Hfind as [Hc Heq]. apply bool_decide_eq_true in Heq.
      apply list_elem_of_fmap. exists c. split; [done|]. by apply list_elem_of_In. }
    repeat split; done.
  - apply find_chat_id_None in Hfind.
    split; [|split; [|split; [|split; [|split]]]]; try done.
    + simpl. apply NoDup_cons. done.
    + simpl. apply list_elem_of_here.
Qed.

Lemma createChat_resume_no_duplicate_witness :
  co_provider (createChat_resume iso_clock 0 (state alice_with_history)
                 alice_with_history (inl raw_chat7))
  = alice_with_history.
Proof.
  refine (proj1 (proj2 (proj2 (createChat_resume_no_duplicate iso_clock 0
            alice_with_history raw_chat7 _))) _).
  - vm_compute. apply NoDup_singleton.
  - vm_compute. apply list_elem_of_here.
Defined.

(** X28. How [createChat] ends. A gateway failure and a [joinChat] failure
    are both rethrown, leaving the provider as it was at that point (after a
    [joinChat] failure the new chat may be listed but is not selected and no
    messages are requested). When [joinChat] resolves, the chat is selected
    and returned and its messages are requested; unlike [setActiveChat],
    this leaves the chat's unread counter as it was. *)
Theorem createChat_finish_cases (clock : nat → bool → string) (now : Z)
    (captured : ChatState) (p : Provider) (normalizedChat : Chat)
    (error : JsError) :
  (co_provider (createChat_resume clock now captured p (inr error)) = p
   ∧ co_raised (createChat_resume clock now captured p (inr error)) = Some error
   ∧ co_effects (createChat_resume clock now captured p (inr error)) = [])
  ∧ (co_provider (createChat_finish now p normalizedChat (Some error)) = p
     ∧ co_raised (createChat_finish now p normalizedChat (Some error)) = Some error
     ∧ co_effects (createChat_finish now p normalizedChat (Some error)) = [])
  ∧ (activeChat (state (co_provider (createChat_finish now p normalizedChat None)))
     = Some normalizedChat
     ∧ co_chat (createChat_finish now p normalizedChat None) = Some normalizedChat
     ∧ co_raised (createChat_finish now p normalizedChat None) = None
     ∧ co_effects (createChat_finish now p normalizedChat None)
       = [LoadMessages (c_id normalizedChat)]
     ∧ unreadCounts (state (co_provider (createChat_finish now p normalizedChat None)))
       = unreadCounts (state p)
     ∧ chats (state (co_provider (createChat_finish now p normalizedChat None)))
       = chats (state p)
     ∧ messages (state (co_provider (createChat_finish now p normalizedChat None)))
       = messages (state p)).
Proof. repeat split. Qed.

(** ** Loading chats and messages *)



(** X30. [loadMessages] replaces the chat's timeline by the fetched
    messages, whatever the timeline held before (messages that arrived or
    were sent in the meantime are lost); the other timelines, the unread
    counters and [messageUpdateTrigger] are untouched. When the fetch fails
    nothing changes. In both cases nothing is raised. *)
Theorem loadMessages_replaces_timeline (now : Z) (p : Provider) (chatId : Z)
    (enrichedMessages : list Message) (error : JsError) :
  timeline (state (out_provider
     (loadMessages_resume now p chatId (inl enrichedMessages)))) chatId
  = enrichedMessages
  ∧ (∀ c, c ≠ chatId →
       timeline (state (out_provider
          (loadMessages_resume now p chatId (inl enrichedMessages)))) c
       = timeline (state p) c)
  ∧ unreadCounts (state (out_provider
       (loadMessages_resume now p chatId (inl enrichedMessages))))
    = unreadCounts (state p)
  ∧ messageUpdateTrigger (state (out_provider
       (loadMessages_resume now p chatId (inl enrichedMessages))))
    = messageUpdateTrigger (state p)
  ∧ out_raised (loadMessages_resume now p chatId (inl enrichedMessages)) = None
  ∧ out_provider (loadMessages_resume now p chatId (inr error)) = p
  ∧ out_raised (loadMessages_resume now p chatId (inr error)) = None.
Proof.
  simpl. split; [apply timeline_insert_eq|]. split; [|done].
  intros c Hc. by apply timeline_insert_ne.
Qed.

Lemma loadMessages_replaces_timeline_witness :
  timeline (state (out_provider
     (loadMessages_resume 0 alice_with_history 9 (inl [stored_local])))) 7
  = timeline (state alice_with_history) 7.
Proof.
  refine (proj1 (proj2 (loadMessages_replaces_timeline 0 alice_with_history 9
            [stored_local] (mkError "x"))) 7 _).
  lia.
Defined.
